(** * The ADB operator of UI-TARS-desktop

    A shallow embedding of [packages/operators/adb/src/index.ts]: the
    screenshot pipeline ([AdbOperator.screenshot]), the action dispatcher
    ([AdbOperator.execute]) and the device selection
    ([getAndroidDeviceId]), together with the pieces of the JavaScript
    runtime they rely on.

    Conventions.
    - A JavaScript string is a [string] whose characters are its code
      units; only code units below 256 are representable.
    - A JavaScript number is a [JS.Number]: a finite value, NaN or one of
      the infinities. A finite coordinate is a [Q] (every finite double is
      a rational, and [Math.round] is exact on it); the round counter and
      the size of a bitmap, which are integers, are kept as [Z].
    - The host file system is a finite map from paths (relative to the
      working directory of the process) to file contents. *)

From Stdlib Require Import ZArith QArith Qround String Ascii List Lia.
From Stdlib.Strings Require Import Byte.
From stdpp Require Import gmap strings pretty.

Local Open Scope Z_scope.

(** ** The JavaScript runtime *)

Module JS.

(** White space and line terminators recognised by
    [String.prototype.trim], among the code units below 256: TAB, LF, VT,
    FF, CR, SP and NBSP. *)
Definition isWhiteSpace (c : ascii) : bool :=
  match N_of_ascii c with
  | 9 | 10 | 11 | 12 | 13 | 32 | 160 => true
  | _ => false
  end%N.

Fixpoint trimStart (s : string) : string :=
  match s with
  | EmptyString => EmptyString
  | String c s' => if isWhiteSpace c then trimStart s' else s
  end.

Fixpoint trimEnd (s : string) : string :=
  match s with
  | EmptyString => EmptyString
  | String c s' =>
      match trimEnd s' with
      | EmptyString => if isWhiteSpace c then EmptyString else String c EmptyString
      | t => String c t
      end
  end.

(** [s.trim()] *)
Definition trim (s : string) : string := trimEnd (trimStart s).

(** Truthiness of a string: every string but the empty one. *)
Definition truthy (s : string) : bool :=
  match s with EmptyString => false | String _ _ => true end.

(** [a || ''] on a possibly undefined string. *)
Definition or_empty (o : option string) : string :=
  match o with
  | Some s => s
  | None => EmptyString
  end.

(** The character class of the escaping regular expression: the single
    quote (39), the double quote (34) and the backslash (92). *)
Definition shell_special (c : ascii) : bool :=
  (N_of_ascii c =? 39)%N || (N_of_ascii c =? 34)%N || (N_of_ascii c =? 92)%N.

Definition backslash : ascii := "\"%char.

(** [s.replace(re, '\\$1')] with the global flag: every character of
    the class, left to right, is replaced by a backslash followed by the
    character itself. *)
Fixpoint replace_shell_special (s : string) : string :=
  match s with
  | EmptyString => EmptyString
  | String c s' =>
      if shell_special c
      then String backslash (String c (replace_shell_special s'))
      else String c (replace_shell_special s')
  end.

(** A number: a finite value of type [A] ([Q] in general, [Z] once it is
    known to be an integer), NaN, or an infinity. Negative zero is not
    told from zero: the operator only prints its numbers, and both print
    as [0]. *)
Inductive Number (A : Type) :=
| Finite (value : A)
| NaN
| PlusInfinity
| MinusInfinity.
Arguments Finite {A} value.
Arguments NaN {A}.
Arguments PlusInfinity {A}.
Arguments MinusInfinity {A}.

(** [Math.round]: the nearest integer, ties towards plus infinity; NaN
    and the infinities are returned as they are. *)
Definition Math_round (n : Number Q) : Number Z :=
  match n with
  | Finite q => Finite (Qfloor (q + (1 # 2)))
  | NaN => NaN
  | PlusInfinity => PlusInfinity
  | MinusInfinity => MinusInfinity
  end.

(** The largest [n] for which [n + 1] is still computed exactly; every
    integer up to it in magnitude is a double. *)
Definition MAX_SAFE : Z := 2 ^ 53.

(** A safe integer (at most 2^53 in magnitude) in a template literal: its
    decimal numeral. The round counter is such an integer. *)
Definition SafeInteger_toString (n : Z) : string := pretty n.

(** The double nearest to a positive integer, ties to the even
    significand; from 2^53 on, doubles are [2 ^ (Z.log2 r - 52)] apart. *)
Definition nearest_double (r : Z) : Z :=
  if r <? MAX_SAFE then r
  else
    let unit := 2 ^ (Z.log2 r - 52) in
    let below := r / unit * unit in
    let rest := r mod unit in
    if 2 * rest <? unit then below
    else if unit <? 2 * rest then below + unit
    else if Z.even (r / unit) then below else below + unit.

(** How many decimal digits a positive integer has. *)
Definition digits_of (n : Z) : Z := Z.of_nat (String.length (pretty n)).

(** The decimal with the fewest significant digits (from [k] on, at most
    17 are needed) that still reads back as the double [v]; of two with
    the same number of digits the one closer to [v], and on a tie the
    one whose last digit is even. *)
Fixpoint shortest (fuel : nat) (k : Z) (v : Z) : Z :=
  match fuel with
  | O => v
  | S fuel' =>
      let scale := 10 ^ (digits_of v - k) in
      let low := v / scale * scale in
      let high := low + scale in
      let low_ok := nearest_double low =? v in
      let high_ok := nearest_double high =? v in
      if low_ok && high_ok then
        if v - low <? high - v then low
        else if high - v <? v - low then high
        else if Z.even (low / scale) then low else high
      else if low_ok then low
      else if high_ok then high
      else shortest fuel' (k + 1) v
  end.

Fixpoint strip_zeros (s : string) : string :=
  match s with
  | EmptyString => EmptyString
  | String c s' =>
      match strip_zeros s' with
      | EmptyString =>
          if Ascii.eqb c "0" then EmptyString else String c EmptyString
      | t => String c t
      end
  end.

(** Exponent notation: the significant digits, a point after the first
    when there are more, and the power of ten. *)
Definition exponent_form (c : Z) : string :=
  let exponent := pretty (digits_of c - 1) in
  match strip_zeros (pretty c) with
  | EmptyString => "0"
  | String d EmptyString => String d ("e+" +:+ exponent)
  | String d rest => String d ("." +:+ rest +:+ "e+" +:+ exponent)
  end.

(** [Number::toString] of a positive integer: up to 2^53 every digit is
    printed; beyond, the shortest decimal that reads back as the same
    double, filled up with zeros, and from 10^21 on in exponent notation.
    An integer that no double has is printed as the double nearest to
    it. *)
Definition magnitude_toString (r : Z) : string :=
  if r <=? MAX_SAFE then SafeInteger_toString r
  else
    let v := nearest_double r in
    if 2 ^ 1024 <=? v then "Infinity"
    else
      let c := shortest 17 1 v in
      if digits_of c <=? 21 then pretty c else exponent_form c.

(** An integer-valued number, NaN or an infinity in a template literal:
    [Number::toString]. *)
Definition Number_toString (n : Number Z) : string :=
  match n with
  | Finite k =>
      if k <? 0 then "-" +:+ magnitude_toString (- k) else magnitude_toString k
  | NaN => "NaN"
  | PlusInfinity => "Infinity"
  | MinusInfinity => "-Infinity"
  end.

(** [n++] on an integer-valued number [0 <= n <= 2^53]: exact below
    [2^53]; at [2^53] the sum rounds back to [2^53]. *)
Definition incr (n : Z) : Z := if n <? MAX_SAFE then n + 1 else n.

(** *** [Buffer.prototype.toString('base64')] *)

Definition base64_alphabet : string :=
  "ABCDEFGHIJKLMNOPQRSTUVWXYZabcdefghijklmnopqrstuvwxyz0123456789+/".

Definition base64_digit (n : N) : ascii :=
  match String.get (N.to_nat n) base64_alphabet with
  | Some c => c
  | None => "="%char
  end.

Definition sextet0 (a : N) : N := N.shiftr a 2.
Definition sextet1 (a b : N) : N :=
  N.lor (N.shiftl (N.land a 3) 4) (N.shiftr b 4).
Definition sextet2 (b c : N) : N :=
  N.lor (N.shiftl (N.land b 15) 2) (N.shiftr c 6).
Definition sextet3 (c : N) : N := N.land c 63.

Fixpoint toString_base64 (buf : list byte) : string :=
  match buf with
  | [] => EmptyString
  | [a] =>
      let a := Byte.to_N a in
      String (base64_digit (sextet0 a))
        (String (base64_digit (sextet1 a 0)) "==")
  | [a; b] =>
      let a := Byte.to_N a in
      let b := Byte.to_N b in
      String (base64_digit (sextet0 a))
        (String (base64_digit (sextet1 a b))
           (String (base64_digit (sextet2 b 0)) "="))
  | a :: b :: c :: rest =>
      let a := Byte.to_N a in
      let b := Byte.to_N b in
      let c := Byte.to_N c in
      String (base64_digit (sextet0 a))
        (String (base64_digit (sextet1 a b))
           (String (base64_digit (sextet2 b c))
              (String (base64_digit (sextet3 c))
                 (toString_base64 rest))))
  end.

End JS.

(** ** Values exchanged with the operator *)

(** [{ x: number | null, y: number | null }] *)
Record Coords := { x : option (JS.Number Q); y : option (JS.Number Q) }.

(** The three inputs the dispatcher reads; each may be undefined. *)
Record ActionInputs := {
  start_box : option string;
  end_box : option string;
  content : option string
}.

Record PredictionParsed := {
  action_type : string;
  action_inputs : ActionInputs
}.

Record ExecuteParams := {
  parsedPrediction : PredictionParsed;
  screenWidth : Z;
  screenHeight : Z
}.

Record ScreenshotOutput := {
  base64 : string;
  width : Z;
  height : Z;
  scaleFactor : Z
}.

(** ** Effects *)

Inductive Level := info | warn | error.

Inductive Exception :=
| CommandFailed (cmd : string)   (* the promise of [command] was rejected *)
| DecodeFailed (path : string)   (* [Jimp.read] rejected *)
| NoSuchFile (path : string).    (* [readFileSync] threw *)

(** A value handed to the logger after the message. *)
Inductive LogValue :=
| LoggedString (s : string)
| LoggedNumber (n : Z)
| LoggedCoordinate (c : option (JS.Number Q))
| LoggedInputs (inputs : ActionInputs)
| LoggedPrediction (prediction : PredictionParsed)
| LoggedError (e : Exception).

(** A logger call: the level, the first argument (the message) and the
    arguments after it. *)
Definition LogEntry : Type := Level * string * list LogValue.

Inductive Completion (A : Type) :=
| Return (a : A)
| Throw (e : Exception).
Arguments Return {A} a.
Arguments Throw {A} e.

(** How the promise of one external command settles. *)
Inductive Settled :=
| Fulfilled (stdout : string)
| Rejected.

(** A path names the same file with or without leading [./]. *)
Fixpoint resolve_path (p : string) : string :=
  match p with
  | String "."%char (String "/"%char rest) => resolve_path rest
  | _ => p
  end.

(** The host directory and whatever else the commands act on. *)
Record World (Device : Type) := {
  files : gmap string (list byte);
  device : Device
}.
Arguments files {Device} w.
Arguments device {Device} w.

Record AdbOperator := {
  deviceId : string;
  currentRound : Z
}.

(** [new AdbOperator(deviceId)] *)
Definition new_AdbOperator (id : string) : AdbOperator :=
  {| deviceId := id; currentRound := 0 |}.

(** The operator instance, the world, and what has been observed so far,
    oldest first: the commands handed to the Command Runner, the host paths
    opened for reading, and the log. *)
Record State (Device : Type) := {
  this : AdbOperator;
  world : World Device;
  issued : list string;
  opened : list string;
  logged : list LogEntry
}.
Arguments this {Device} s.
Arguments world {Device} s.
Arguments issued {Device} s.
Arguments opened {Device} s.
Arguments logged {Device} s.

Definition M (Device A : Type) : Type :=
  State Device -> Completion A * State Device.

Definition ret {D A} (a : A) : M D A := fun st => (Return a, st).

Definition throw {D A} (e : Exception) : M D A := fun st => (Throw e, st).

Definition bind {D A B} (m : M D A) (k : A -> M D B) : M D B :=
  fun st =>
    match m st with
    | (Return a, st') => k a st'
    | (Throw e, st') => (Throw e, st')
    end.

(** [try { m } catch (error) { handler error }], and [p.catch(handler)]. *)
Definition try_catch {D A} (m : M D A) (handler : Exception -> M D A) : M D A :=
  fun st =>
    match m st with
    | (Return a, st') => (Return a, st')
    | (Throw e, st') => handler e st'
    end.

Declare Scope js_scope.
Delimit Scope js_scope with js.
Notation "'let*' x ':=' m 'in' k" := (bind m (fun x => k))
  (at level 10, x pattern, m at level 100, k at level 200) : js_scope.
Notation "m ';;' k" := (bind m (fun _ => k))
  (at level 100, k at level 200, right associativity) : js_scope.

Definition get_this {D} : M D AdbOperator := fun st => (Return (this st), st).

Definition set_currentRound {D} (n : Z) : M D unit :=
  fun st =>
    (Return tt,
     {| this := {| deviceId := deviceId (this st); currentRound := n |};
        world := world st; issued := issued st; opened := opened st;
        logged := logged st |}).

Definition logger {D} (l : Level) (msg : string) (args : list LogValue)
  : M D unit :=
  fun st =>
    (Return tt,
     {| this := this st; world := world st; issued := issued st;
        opened := opened st; logged := logged st ++ [(l, msg, args)] |}).

(** The file at [path] is opened and read whole. *)
Definition open_file {D} (path : string) : M D (option (list byte)) :=
  fun st =>
    (Return (files (world st) !! resolve_path path),
     {| this := this st; world := world st; issued := issued st;
        opened := opened st ++ [path]; logged := logged st |}).

(** ** The operator *)

Section Operator.

Context {Device : Type}.

(** [command(cmd, { timeout })] of execa: runs [cmd], changes the world,
    and the promise it returns settles one way or the other. *)
Variable command : string -> Z -> World Device -> Settled * World Device.

(** What [Jimp.read] makes of a file's contents: the width and height of
    the bitmap, or nothing when the contents do not decode. *)
Variable decode : list byte -> option (Z * Z).

(** [parseBoxToScreenCoords({ boxStr, screenWidth, screenHeight })] of
    [@ui-tars/sdk/core], the Coordinate Mapper. *)
Variable parseBoxToScreenCoords : string -> Z -> Z -> Coords.

Local Abbreviation M := (M Device).
Local Open Scope js_scope.

(** [commandWithTimeout(cmd, timeout = 3000)], awaited. *)
Definition commandWithTimeout (cmd : string) : M string :=
  fun st =>
    let '(outcome, w) := command cmd 3000 (world st) in
    let st' := {| this := this st; world := w;
                  issued := issued st ++ [cmd]; opened := opened st;
                  logged := logged st |} in
    match outcome with
    | Fulfilled stdout => (Return stdout, st')
    | Rejected => (Throw (CommandFailed cmd), st')
    end.

(** [commandWithTimeout(cmd).catch(() => ({ stdout: '' }))], awaited. *)
Definition commandWithTimeout_catch (cmd : string) : M string :=
  try_catch (commandWithTimeout cmd) (fun _ => ret EmptyString).

(** [readFileSync(path)] *)
Definition readFileSync (path : string) : M (list byte) :=
  let* found := open_file path in
  match found with
  | Some buf => ret buf
  | None => throw (NoSuchFile path)
  end.

(** [Jimp.read(path)], awaited; only the size of the bitmap is kept. *)
Definition Jimp_read (path : string) : M (Z * Z) :=
  let* found := open_file path in
  match found with
  | Some buf =>
      match decode buf with
      | Some bitmap => ret bitmap
      | None => throw (DecodeFailed path)
      end
  | None => throw (DecodeFailed path)
  end.

Definition screencap_command (op : AdbOperator) : string :=
  "adb -s " +:+ deviceId op +:+
  " shell screencap -p /sdcard/uitars_screenshot.png".

(** The host-local file of a round. *)
Definition round_file (round : Z) : string :=
  "./uitars_screenshot_" +:+ JS.SafeInteger_toString round +:+ ".png".

Definition pull_command (op : AdbOperator) : string :=
  "adb -s " +:+ deviceId op +:+
  " pull /sdcard/uitars_screenshot.png " +:+ round_file (currentRound op).

(** *** [screenshot()]

    The body is cut at its three [await]s into four segments; each one
    reads [this] afresh, as the source does. *)

(** Up to the first [await]: the capture on the device. *)
Definition screenshot_capture : M string :=
  let* op := get_this in
  commandWithTimeout_catch (screencap_command op).

(** Up to the second [await]: the pull to the host. *)
Definition screenshot_pull (screencap : string) : M string :=
  logger info "[AdbOperator] screencap" [LoggedString screencap] ;;
  let* op := get_this in
  commandWithTimeout_catch (pull_command op).

(** Up to the third [await]: the decoding. *)
Definition screenshot_decode (pullScreenshot : string) : M (Z * Z) :=
  logger info "[AdbOperator] pullScreenshot" [LoggedString pullScreenshot] ;;
  let* op := get_this in
  Jimp_read (round_file (currentRound op)).

(** The rest: the payload and the result. *)
Definition screenshot_encode (image : Z * Z) : M ScreenshotOutput :=
  let width := fst image in
  let height := snd image in
  let* imageBuffer := readFileSync "uitars_screenshot.png" in
  let base64 := JS.toString_base64 imageBuffer in
  logger info
    ("[AdbOperator] screenshot: " +:+
     JS.Number_toString (JS.Finite width) +:+ "x" +:+
     JS.Number_toString (JS.Finite height) +:+ ", scaleFactor: 1") [] ;;
  ret {| base64 := base64; width := width; height := height;
         scaleFactor := 1 |}.

(** [catch (error) { logger.error(...); throw error; }] *)
Definition screenshot_rethrow {A} (e : Exception) : M A :=
  logger error "[AdbOperator] Screenshot error:" [LoggedError e] ;;
  throw e.

(** [this.currentRound++], ahead of the [try] block. *)
Definition screenshot_enter : M unit :=
  let* op := get_this in
  set_currentRound (JS.incr (currentRound op)).

Definition screenshot : M ScreenshotOutput :=
  screenshot_enter ;;
  try_catch
    (let* screencap := screenshot_capture in
     let* pullScreenshot := screenshot_pull screencap in
     let* image := screenshot_decode pullScreenshot in
     screenshot_encode image)
    screenshot_rethrow.

(** [n] calls one after the other, each awaited (and its failure caught
    by the caller) before the next is made. *)
Fixpoint screenshots (n : nat) (st : State Device)
  : list (Completion ScreenshotOutput) * State Device :=
  match n with
  | O => ([], st)
  | S n' =>
      let '(result, st1) := screenshot st in
      let '(results, st2) := screenshots n' st1 in
      (result :: results, st2)
  end.

(** *** Calls in flight

    JavaScript runs one segment of one call at a time; at an [await] the
    call is suspended and any other call of the same instance may run.
    A command or a read takes effect when it is issued. *)

Inductive Call :=
| NotStarted
| AwaitingCapture (screencap : string)
| AwaitingPull (pullScreenshot : string)
| AwaitingDecode (image : Z * Z)
| Completed (result : Completion ScreenshotOutput).

(** A segment inside the [try] block: it suspends the call at the next
    [await], or the [catch] clause ends the call. *)
Definition segment {A} (m : M A) (next : A -> Call) (st : State Device)
  : Call * State Device :=
  match try_catch m screenshot_rethrow st with
  | (Return a, st') => (next a, st')
  | (Throw e, st') => (Completed (Throw e), st')
  end.

(** The call runs up to its next [await], or to its end. *)
Definition resume (c : Call) (st : State Device) : Call * State Device :=
  match c with
  | NotStarted =>
      segment screenshot_capture AwaitingCapture (snd (screenshot_enter st))
  | AwaitingCapture screencap =>
      segment (screenshot_pull screencap) AwaitingPull st
  | AwaitingPull pullScreenshot =>
      segment (screenshot_decode pullScreenshot) AwaitingDecode st
  | AwaitingDecode image =>
      segment (screenshot_encode image) (fun out => Completed (Return out)) st
  | Completed result => (Completed result, st)
  end.

(** The call is given [n] turns in a row. *)
Fixpoint resume_times (n : nat) (c : Call) (st : State Device)
  : Call * State Device :=
  match n with
  | O => (c, st)
  | S n' => let '(c', st') := resume c st in resume_times n' c' st'
  end.

(** A call together with what its own segments did: the commands they
    issued and the host paths they opened. *)
Record InFlight := {
  progress : Call;
  ran : list string;
  read : list string
}.

Definition called : InFlight :=
  {| progress := NotStarted; ran := []; read := [] |}.

Definition take_turn (c : InFlight) (st : State Device)
  : InFlight * State Device :=
  let '(p, st') := resume (progress c) st in
  ({| progress := p;
      ran := ran c ++ drop (length (issued st)) (issued st');
      read := read c ++ drop (length (opened st)) (opened st') |},
   st').

(** Two calls on one instance. *)
Record Calls := {
  call1 : InFlight;
  call2 : InFlight;
  shared : State Device
}.

Inductive Caller := first | second.

Definition turn (p : Calls) (who : Caller) : Calls :=
  match who with
  | first =>
      let '(c, st) := take_turn (call1 p) (shared p) in
      {| call1 := c; call2 := call2 p; shared := st |}
  | second =>
      let '(c, st) := take_turn (call2 p) (shared p) in
      {| call1 := call1 p; call2 := c; shared := st |}
  end.

(** The schedule says whose segment runs next; the first turn of a
    caller is its call of [screenshot()]. *)
Definition interleave (schedule : list Caller) (st : State Device) : Calls :=
  fold_left turn schedule
    {| call1 := called; call2 := called; shared := st |}.

(** *** [execute(params)] *)

Definition tap_command (op : AdbOperator) (startX startY : JS.Number Q)
  : string :=
  "adb -s " +:+ deviceId op +:+ " shell input tap " +:+
  JS.Number_toString (JS.Math_round startX) +:+ " " +:+
  JS.Number_toString (JS.Math_round startY).

Definition dquote : string := String "034"%char EmptyString.

Definition text_command (op : AdbOperator) (escapedContent : string) : string :=
  "adb -s " +:+ deviceId op +:+ " shell input text " +:+
  dquote +:+ escapedContent +:+ dquote.

Definition swipe_command (op : AdbOperator)
    (startX startY endX endY : JS.Number Q) : string :=
  "adb -s " +:+ deviceId op +:+ " shell input swipe " +:+
  JS.Number_toString (JS.Math_round startX) +:+ " " +:+
  JS.Number_toString (JS.Math_round startY) +:+ " " +:+
  JS.Number_toString (JS.Math_round endX) +:+ " " +:+
  JS.Number_toString (JS.Math_round endY) +:+ " 300".

Definition execute_rethrow {A} (e : Exception) : M A :=
  logger error "[AdbOperator] Error:" [LoggedError e] ;;
  throw e.

(** The [switch] on [action_type]. *)
Definition execute_switch (action_type : string) (action_inputs : ActionInputs)
    (screenWidth screenHeight : Z) (startX startY : option (JS.Number Q))
  : M unit :=
  if String.eqb action_type "click" then
    match startX, startY with
    | Some startX, Some startY =>
        let* op := get_this in
        let* _ := commandWithTimeout (tap_command op startX startY) in
        ret tt
    | _, _ => ret tt
    end
  else if String.eqb action_type "type" then
    match option_map JS.trim (content action_inputs) with
    | Some content =>
        if JS.truthy content then
          let escapedContent := JS.replace_shell_special content in
          let* op := get_this in
          let* _ := commandWithTimeout (text_command op escapedContent) in
          ret tt
        else ret tt
    | None => ret tt
    end
  else if String.eqb action_type "swipe" then
    match end_box action_inputs with
    | Some end_box =>
        if JS.truthy end_box then
          let endXY := parseBoxToScreenCoords end_box screenWidth screenHeight in
          match startX, startY, x endXY, y endXY with
          | Some startX, Some startY, Some endX, Some endY =>
              let* op := get_this in
              let* _ :=
                commandWithTimeout
                  (swipe_command op startX startY endX endY) in
              ret tt
          | _, _, _, _ => ret tt
          end
        else ret tt
    | None => ret tt
    end
  else
    logger warn ("[AdbOperator] Unsupported action: " +:+ action_type) [].

Definition execute (params : ExecuteParams) : M unit :=
  let parsedPrediction := parsedPrediction params in
  let screenWidth := screenWidth params in
  let screenHeight := screenHeight params in
  let action_type := action_type parsedPrediction in
  let action_inputs := action_inputs parsedPrediction in
  let startBoxStr := JS.or_empty (start_box action_inputs) in
  logger info "[AdbOperator] execute"
    [LoggedPrediction parsedPrediction; LoggedNumber screenWidth;
     LoggedNumber screenHeight] ;;
  logger info "[AdbOperator] execute"
    [LoggedString action_type; LoggedInputs action_inputs;
     LoggedString startBoxStr] ;;
  let startXY := parseBoxToScreenCoords startBoxStr screenWidth screenHeight in
  logger info "[AdbOperator] execute"
    [LoggedString action_type; LoggedCoordinate (x startXY);
     LoggedCoordinate (y startXY); LoggedInputs action_inputs] ;;
  try_catch
    (execute_switch action_type action_inputs screenWidth screenHeight
       (x startXY) (y startXY))
    execute_rethrow.

End Operator.

(** ** The Coordinate Mapper

    [parseBoxToScreenCoords] lives in [@ui-tars/sdk/core], which is not
    among the sources. The operator takes it as a parameter; this module
    gives the mapper that section 4.2 of the specification describes, for
    the statements that need a concrete one. *)

Module CoordinateMapper.

(** Modelled from the spec: part of [resolve]; a decimal digit. *)
Definition digit (c : ascii) : option Z :=
  let n := N_of_ascii c in
  if ((48 <=? n) && (n <=? 57))%N then Some (Z.of_N (n - 48)) else None.

(** Modelled from the spec: part of [resolve]; the value of a non-empty
    run of decimal digits, and its length. *)
Fixpoint digits (s : string) (acc : Z) (len : nat) : option (Z * nat) :=
  match s with
  | EmptyString => match len with O => None | _ => Some (acc, len) end
  | String c s' =>
      match digit c with
      | Some d => digits s' (10 * acc + d) (S len)
      | None => None
      end
  end.

(** Modelled from the spec: part of [resolve]; the pieces of [s] between
    the occurrences of [sep]. *)
Fixpoint split (sep : ascii) (s : string) : list string :=
  match s with
  | EmptyString => [EmptyString]
  | String c s' =>
      if Ascii.eqb c sep then EmptyString :: split sep s'
      else
        match split sep s' with
        | piece :: pieces => String c piece :: pieces
        | [] => [String c EmptyString]
        end
  end.

(** Modelled from the spec: part of [resolve]; a decimal numeral is a run
    of digits, optionally followed by a point and more digits. *)
Definition decimal (s : string) : option Q :=
  match split "."%char s with
  | [whole] =>
      match digits whole 0 O with
      | Some (n, _) => Some (inject_Z n)
      | None => None
      end
  | [whole; fraction] =>
      match digits whole 0 O, digits fraction 0 O with
      | Some (n, _), Some (m, k) =>
          Some (inject_Z n + (m # Pos.of_nat (Nat.pow 10 k)))%Q
      | _, _ => None
      end
  | _ => None
  end.

(** Modelled from the spec: part of [resolve]; relative coordinates lie
    between 0 and 1. *)
Definition normalized (q : Q) : bool := Qle_bool 0 q && Qle_bool q 1.

(** Modelled from the spec: part of [resolve]; every piece, trimmed, is a
    normalized number. *)
Fixpoint numbers (pieces : list string) : option (list Q) :=
  match pieces with
  | [] => Some []
  | piece :: rest =>
      match decimal (JS.trim piece), numbers rest with
      | Some q, Some qs => if normalized q then Some (q :: qs) else None
      | _, _ => None
      end
  end.

(** Modelled from the spec: part of [resolve]; [(null, null)]. *)
Definition unresolvable : Coords := {| x := None; y := None |}.

(** Modelled from the spec: [parseBoxToScreenCoords] of
    [@ui-tars/sdk/core] is not among the sources. Section 4.2 of the
    specification: the box string holds one point or the two corners of a
    box, as comma-separated normalized numbers; the corners of a box are
    averaged to its centroid; the result is scaled by the screen size and
    not rounded; an empty, malformed or out-of-range string resolves to
    [(null, null)]. *)
Definition resolve (boxString : string) (screenWidth screenHeight : Z) : Coords :=
  match numbers (split ","%char boxString) with
  | Some [px; py] =>
      {| x := Some (JS.Finite (px * inject_Z screenWidth)%Q);
         y := Some (JS.Finite (py * inject_Z screenHeight)%Q) |}
  | Some [x1; y1; x2; y2] =>
      {| x := Some (JS.Finite ((x1 + x2) / 2 * inject_Z screenWidth)%Q);
         y := Some (JS.Finite ((y1 + y2) / 2 * inject_Z screenHeight)%Q) |}
  | _ => unresolvable
  end.

End CoordinateMapper.

(** ** Vocabulary of the specification *)

(** A box string resolves when both coordinates are non-null. *)
Definition resolved (c : Coords) : option (JS.Number Q * JS.Number Q) :=
  match x c, y c with
  | Some px, Some py => Some (px, py)
  | _, _ => None
  end.

(** The integer nearest to [q], the larger one when two are equally
    near. *)
Definition nearest (q : Q) (n : Z) : Prop :=
  (inject_Z n - (1 # 2) <= q)%Q /\ (q < inject_Z n + (1 # 2))%Q.


(** What [Math.round] may give for a coordinate: for a finite one the
    integer nearest to it, NaN for NaN, an infinity for itself. *)
Definition rounded (v : JS.Number Q) (r : JS.Number Z) : Prop :=
  match v, r with
  | JS.Finite q, JS.Finite n => nearest q n
  | JS.NaN, JS.NaN => True
  | JS.PlusInfinity, JS.PlusInfinity => True
  | JS.MinusInfinity, JS.MinusInfinity => True
  | _, _ => False
  end.

(** The tap and swipe commands with the given texts for coordinates. *)
Definition tap_text (id x y : string) : string :=
  "adb -s " +:+ id +:+ " shell input tap " +:+ x +:+ " " +:+ y.

Definition swipe_text (id x1 y1 x2 y2 : string) : string :=
  "adb -s " +:+ id +:+ " shell input swipe " +:+
  x1 +:+ " " +:+ y1 +:+ " " +:+ x2 +:+ " " +:+ y2 +:+ " 300".




(** Content made of white space only (the empty content included). *)
Fixpoint whitespace_only (s : string) : bool :=
  match s with
  | EmptyString => true
  | String c s' => JS.isWhiteSpace c && whitespace_only s'
  end.

(** The escaping in the words of the specification: a single quote, a
    double quote or a backslash is prefixed by a backslash, every other
    character stands as it is. *)
Definition escaped_char (c : ascii) : string :=
  if JS.shell_special c
  then String JS.backslash (String c EmptyString)
  else String c EmptyString.

Definition shell_escaped (s : string) : string :=
  fold_right (fun c rest => escaped_char c +:+ rest) EmptyString
    (list_ascii_of_string s).

(** Reading escaped text back: a backslash stands for the character
    after it. *)
Fixpoint unescaped (s : string) : string :=
  match s with
  | EmptyString => EmptyString
  | String c s' =>
      if Ascii.eqb c JS.backslash then
        match s' with
        | EmptyString => EmptyString
        | String d s'' => String d (unescaped s'')
        end
      else String c (unescaped s')
  end.

Definition action_params (type : string) (inputs : ActionInputs) (w h : Z)
  : ExecuteParams :=
  {| parsedPrediction := {| action_type := type; action_inputs := inputs |};
     screenWidth := w; screenHeight := h |}.

Definition only_start_box (box : string) : ActionInputs :=
  {| start_box := Some box; end_box := None; content := None |}.

Definition only_content (text : string) : ActionInputs :=
  {| start_box := None; end_box := None; content := Some text |}.

(** The three opening log lines of [execute]: the request, the action
    with its inputs and the start box, the action with the coordinates
    the Coordinate Mapper gave for the start box. *)
Definition opening_lines (parseBoxToScreenCoords : string -> Z -> Z -> Coords)
    (params : ExecuteParams) : list LogEntry :=
  let prediction := parsedPrediction params in
  let inputs := action_inputs prediction in
  let startBoxStr := JS.or_empty (start_box inputs) in
  let startXY :=
    parseBoxToScreenCoords startBoxStr (screenWidth params)
      (screenHeight params) in
  [(info, "[AdbOperator] execute",
    [LoggedPrediction prediction; LoggedNumber (screenWidth params);
     LoggedNumber (screenHeight params)]);
   (info, "[AdbOperator] execute",
    [LoggedString (action_type prediction); LoggedInputs inputs;
     LoggedString startBoxStr]);
   (info, "[AdbOperator] execute",
    [LoggedString (action_type prediction); LoggedCoordinate (x startXY);
     LoggedCoordinate (y startXY); LoggedInputs inputs])].

(** The state after [execute] has written its three opening log lines. *)
Definition execute_entered {D}
    (parseBoxToScreenCoords : string -> Z -> Z -> Coords)
    (params : ExecuteParams) (st : State D) : State D :=
  {| this := this st; world := world st; issued := issued st;
     opened := opened st;
     logged := logged st ++ opening_lines parseBoxToScreenCoords params |}.

(** The instance once a call has stepped its counter. *)
Definition next_round (op : AdbOperator) : AdbOperator :=
  {| deviceId := deviceId op; currentRound := JS.incr (currentRound op) |}.

(** What a command with the swallowing handler hands back: what the
    command printed, or the empty string when it failed. *)
Definition stdout_of (outcome : Settled) : string :=
  match outcome with
  | Fulfilled stdout => stdout
  | Rejected => EmptyString
  end.

(** The state in which [screenshot()] decodes: the counter stepped, both
    commands run (however they settled) and their output logged, the file
    of the round opened. *)
Definition fetched {D} (command : string -> Z -> World D -> Settled * World D)
    (st : State D) : State D :=
  let op := next_round (this st) in
  let capture := command (screencap_command op) 3000 (world st) in
  let pull := command (pull_command op) 3000 (snd capture) in
  {| this := op; world := snd pull;
     issued := issued st ++ [screencap_command op; pull_command op];
     opened := opened st ++ [round_file (currentRound op)];
     logged := logged st ++
       [(info, "[AdbOperator] screencap",
         [LoggedString (stdout_of (fst capture))]);
        (info, "[AdbOperator] pullScreenshot",
         [LoggedString (stdout_of (fst pull))])] |}.

Definition add_opened {D} (path : string) (st : State D) : State D :=
  {| this := this st; world := world st; issued := issued st;
     opened := opened st ++ [path]; logged := logged st |}.

Definition add_logged {D} (line : LogEntry) (st : State D) : State D :=
  {| this := this st; world := world st; issued := issued st;
     opened := opened st; logged := logged st ++ [line] |}.

(** The two commands of the call that runs as round [round]. *)
Definition round_commands (id : string) (round : Z) : list string :=
  let op := {| deviceId := id; currentRound := round |} in
  [screencap_command op; pull_command op].

(** Rounds [from + 1], ..., [from + n]. *)
Definition rounds_after (from : Z) (n : nat) : list Z :=
  map (fun k => from + Z.of_nat k) (seq 1 n).

(** Whether a call has been made. *)
Definition started (c : Call) : bool :=
  match c with
  | NotStarted => false
  | _ => true
  end.

(** The call has issued its decode (or is over). *)
Definition past_decode (c : Call) : Prop :=
  match c with
  | AwaitingDecode _ | Completed _ => True
  | _ => False
  end.

(** The call touches no per-round file but the one of [round]. *)
Definition keeps_to_round (id : string) (round : Z) (c : InFlight) : Prop :=
  Forall (fun cmd => In cmd (round_commands id round)) (ran c) /\
  Forall (fun path => path = round_file round \/ path = "uitars_screenshot.png")
    (read c).

(** How many of the two calls have been made. *)
Definition calls_made {D} (p : @Calls D) : Z :=
  Z.b2z (started (progress (call1 p))) + Z.b2z (started (progress (call2 p))).

(** The second call was made, if at all, once the first had issued its
    decode: the first call keeps to round [n + 1], the second to round
    [n + 2], and the counter says which of them ran last. *)
Definition apart {D} (id : string) (n : Z) (p : @Calls D) : Prop :=
  deviceId (this (shared p)) = id /\
  past_decode (progress (call1 p)) /\
  keeps_to_round id (n + 1) (call1 p) /\
  keeps_to_round id (n + 2) (call2 p) /\
  currentRound (this (shared p)) =
    (if started (progress (call2 p)) then n + 2 else n + 1).

(** Two runs that differ at most in what they log: the same completion,
    instance and world, the same commands issued and files opened. *)
Definition alike {D A} (run run' : Completion A * State D) : Prop :=
  fst run = fst run' /\
  this (snd run) = this (snd run') /\
  world (snd run) = world (snd run') /\
  issued (snd run) = issued (snd run') /\
  opened (snd run) = opened (snd run').

(** The same state with another value in the counter. *)
Definition with_round {D} (round : Z) (st : State D) : State D :=
  {| this := {| deviceId := deviceId (this st); currentRound := round |};
     world := world st; issued := issued st; opened := opened st;
     logged := logged st |}.

(** An instance and a world with nothing observed yet. *)
Definition observe_from {D} (op : AdbOperator) (w : World D) : State D :=
  {| this := op; world := w; issued := []; opened := []; logged := [] |}.

(** ** A device to run the operator against *)

Module Emulator.

(** What is on the display, as the PNG file a capture would produce, and
    the files of the device. *)
Record Device := {
  display : list byte;
  sdcard : gmap string (list byte)
}.

Definition bytes (codes : list N) : list byte :=
  flat_map (fun n => match Byte.of_N n with Some b => [b] | None => [] end)
    codes.

(** The debug bridge, for the commands the operator builds: a capture
    stores the display on the device, a pull copies a device file to the
    host, an input event is accepted; anything else is rejected. *)
Definition adb (cmd : string) (timeout : Z) (w : World Device)
  : Settled * World Device :=
  match String.words cmd with
  | [a; s; id; sh; sc; p; path] =>
      if String.eqb sh "shell" && String.eqb sc "screencap" then
        (Fulfilled EmptyString,
         {| files := files w;
            device := {| display := display (device w);
                         sdcard := <[path := display (device w)]>
                                     (sdcard (device w)) |} |})
      else if String.eqb sh "shell" && String.eqb sc "input" then
        (Fulfilled EmptyString, w)
      else (Rejected, w)
  | [a; s; id; pull; src; dst] =>
      if String.eqb pull "pull" then
        match sdcard (device w) !! src with
        | Some buf =>
            (Fulfilled "1 file pulled",
             {| files := <[resolve_path dst := buf]> (files w);
                device := device w |})
        | None => (Rejected, w)
        end
      else (Rejected, w)
  | a :: s :: id :: sh :: inp :: _ =>
      if String.eqb sh "shell" && String.eqb inp "input" then
        (Fulfilled EmptyString, w)
      else (Rejected, w)
  | _ => (Rejected, w)
  end.

(** A transport on which every command fails or times out, leaving
    everything as it was. *)
Definition unreachable (cmd : string) (timeout : Z) (w : World Device)
  : Settled * World Device :=
  (Rejected, w).

Definition be32 (b3 b2 b1 b0 : byte) : Z :=
  Z.of_N (Byte.to_N b3) * 2 ^ 24 + Z.of_N (Byte.to_N b2) * 2 ^ 16 +
  Z.of_N (Byte.to_N b1) * 2 ^ 8 + Z.of_N (Byte.to_N b0).

(** What follows [prefix] in [buf], when [buf] starts with it. *)
Fixpoint after (prefix buf : list byte) : option (list byte) :=
  match prefix, buf with
  | [], _ => Some buf
  | p :: prefix', b :: buf' =>
      if Byte.eqb p b then after prefix' buf' else None
  | _ :: _, [] => None
  end.

Definition png_signature : list byte :=
  bytes [137; 80; 78; 71; 13; 10; 26; 10]%N.

Definition ihdr_tag : list byte := bytes [0; 0; 0; 13; 73; 72; 68; 82]%N.

(** A decoder to run the examples with: the size recorded in the header
    chunk of a PNG file; anything that does not start with the PNG
    signature and a header chunk does not decode. The rest of the file is
    not looked at. *)
Definition png_size (buf : list byte) : option (Z * Z) :=
  match after (png_signature ++ ihdr_tag) buf with
  | Some (w3 :: w2 :: w1 :: w0 :: h3 :: h2 :: h1 :: h0 :: _) =>
      Some (be32 w3 w2 w1 w0, be32 h3 h2 h1 h0)
  | _ => None
  end.

Definition serial : string := "emulator-5554".

(** What the device displays: a PNG file, 3 pixels wide and 5 high. *)
Definition fresh_capture : list byte :=
  bytes [137; 80; 78; 71; 13; 10; 26; 10; 0; 0; 0; 13; 73; 72; 68; 82;
         0; 0; 0; 3; 0; 0; 0; 5; 8; 2; 0; 0; 0; 15; 19; 193; 245;
         0; 0; 0; 14; 73; 68; 65; 84; 120; 218; 99; 248; 15; 3; 12; 68;
         178; 0; 97; 9; 44; 212; 229; 198; 165; 186;
         0; 0; 0; 0; 73; 69; 78; 68; 174; 66; 96; 130]%N.

(** A capture of an earlier run, left on the host: a PNG file, 2 pixels
    wide and 4 high. *)
Definition stale_capture : list byte :=
  bytes [137; 80; 78; 71; 13; 10; 26; 10; 0; 0; 0; 13; 73; 72; 68; 82;
         0; 0; 0; 2; 0; 0; 0; 4; 8; 2; 0; 0; 0; 43; 141; 121; 110;
         0; 0; 0; 11; 73; 68; 65; 84; 120; 218; 99; 96; 192; 13; 0; 0;
         28; 0; 1; 199; 70; 105; 121;
         0; 0; 0; 0; 73; 69; 78; 68; 174; 66; 96; 130]%N.

Definition phone : Device := {| display := fresh_capture; sdcard := ∅ |}.

Definition state_with (op : AdbOperator) (host : gmap string (list byte))
  : State Device :=
  observe_from op {| files := host; device := phone |}.

(** A host directory with nothing in it. *)
Definition clean_host : gmap string (list byte) := ∅.

(** A host directory in which an earlier run left [uitars_screenshot.png]. *)
Definition host_with_old_capture : gmap string (list byte) :=
  {[ "uitars_screenshot.png" := stale_capture ]}.

(** A host directory in which earlier runs left [uitars_screenshot.png]
    and the file of round 1. *)
Definition host_with_leftovers : gmap string (list byte) :=
  <[ "uitars_screenshot_1.png" := stale_capture ]> host_with_old_capture.

End Emulator.




(** ** Device selection: [getAndroidDeviceId()] *)

(** [s.split(sep)] for a separator of one character: the pieces between
    the occurrences of [sep]; the empty string has one piece, itself. *)
Fixpoint String_split (sep : ascii) (s : string) : list string :=
  match s with
  | EmptyString => [EmptyString]
  | String c s' =>
      if Ascii.eqb c sep then EmptyString :: String_split sep s'
      else
        match String_split sep s' with
        | piece :: pieces => String c piece :: pieces
        | [] => [String c EmptyString]
        end
  end.

Definition newline : ascii := "010"%char.
Definition tab : ascii := "009"%char.

(** [value.split('\t')?.[0]] *)
Definition first_field (value : string) : string :=
  match String_split tab value with
  | field :: _ => field
  | [] => EmptyString
  end.

(** The callback handed to [map]: [false] (here [None]) for the first
    line, the trimmed first field for every other line. *)
Definition device_of_line (value : string) (index : nat) : option string :=
  match index with
  | O => None
  | S _ => Some (JS.trim (first_field value))
  end.

(** [array.map((value, index) => ...)], from [index] on. *)
Fixpoint Array_map_indexed {A B} (callback : A -> nat -> B) (array : list A)
    (index : nat) : list B :=
  match array with
  | [] => []
  | value :: rest =>
      callback value index :: Array_map_indexed callback rest (S index)
  end.

(** [array.filter(Boolean)] on strings and [false]: [false] and the empty
    string go, every other string stays. *)
Fixpoint Array_filter_Boolean (array : list (option string)) : list string :=
  match array with
  | [] => []
  | Some value :: rest =>
      if JS.truthy value then value :: Array_filter_Boolean rest
      else Array_filter_Boolean rest
  | None :: rest => Array_filter_Boolean rest
  end.

(** The devices read off the output of [adb devices]. *)
Definition devices_of (stdout : string) : list string :=
  Array_filter_Boolean
    (Array_map_indexed device_of_line (String_split newline stdout) O).

(** How the promise of [getAndroidDeviceId()] settles: with a device
    identifier or [undefined], with the failure of a command, or with the
    rejection of the prompt. *)
Inductive Selection :=
| Resolves (device : option string)
| Throws (e : Exception)
| PromptRejected.

Section DeviceSelection.

Context {Device : Type}.

Variable command : string -> Z -> World Device -> Settled * World Device.

(** [inquirer.prompt] with its one question of type list: given the
    choices and the default, the answer's [device], or nothing when the
    promise is rejected. *)
Variable prompt : list string -> option string -> option string.

Definition getAndroidDeviceId (st : State Device)
  : Selection * State Device :=
  match commandWithTimeout_catch command "adb devices" st with
  | (Return stdout, st') =>
      let devices := devices_of stdout in
      if (1 <? length devices)%nat then
        match prompt devices (head devices) with
        | Some device => (Resolves (Some device), st')
        | None => (PromptRejected, st')
        end
      else (Resolves (head devices), st')
  | (Throw e, st') => (Throws e, st')
  end.

End DeviceSelection.

(** ** Requests served one after the other *)

Inductive Request :=
| TakeScreenshot
| Execute (params : ExecuteParams).

Section Serving.

Context {Device : Type}.
Variable command : string -> Z -> World Device -> Settled * World Device.
Variable decode : list byte -> option (Z * Z).
Variable parseBoxToScreenCoords : string -> Z -> Z -> Coords.

(** One request, awaited; the caller catches what it throws and goes on. *)
Definition serve_one (request : Request) (st : State Device) : State Device :=
  match request with
  | TakeScreenshot => snd (screenshot command decode st)
  | Execute params => snd (execute command parseBoxToScreenCoords params st)
  end.

Definition serve (requests : list Request) (st : State Device) : State Device :=
  fold_left (fun st request => serve_one request st) requests st.

End Serving.

(** How many of the requests are screenshots. *)
Fixpoint screenshots_among (requests : list Request) : nat :=
  match requests with
  | [] => O
  | TakeScreenshot :: rest => S (screenshots_among rest)
  | Execute _ :: rest => screenshots_among rest
  end.

(** ** More vocabulary *)

(** The character does not occur in the string. *)
Fixpoint free_of (c : ascii) (s : string) : bool :=
  match s with
  | EmptyString => true
  | String d s' => negb (Ascii.eqb d c) && free_of c s'
  end.

(** An identifier as [adb devices] prints one: not empty, on one line,
    without a tab, with no white space around it. *)
Definition device_name (id : string) : Prop :=
  id <> EmptyString /\ free_of newline id = true /\ free_of tab id = true /\
  JS.trim id = id.

(** What [adb devices] prints: the header, one line per device with its
    identifier, a tab and its state, and an empty line. *)
Fixpoint device_lines (entries : list (string * string)) : string :=
  match entries with
  | [] => String newline EmptyString
  | (id, state) :: rest =>
      id +:+ String tab state +:+ String newline (device_lines rest)
  end.

Definition adb_devices_output (header : string)
    (entries : list (string * string)) : string :=
  header +:+ String newline (device_lines entries).

(** Reading a text between double quotes as a shell does: a backslash
    takes the next character with it, a bare double quote ends the text.
    [true] when the text is read to its end without either a bare double
    quote or a backslash with nothing after it. *)
Fixpoint stays_quoted (s : string) : bool :=
  match s with
  | EmptyString => true
  | String c s' =>
      if Ascii.eqb c JS.backslash then
        match s' with
        | EmptyString => false
        | String _ s'' => stays_quoted s''
        end
      else if Ascii.eqb c "034"%char then false
      else stays_quoted s'
  end.

(** The first and the last character of a string. *)
Definition first_char (s : string) : option ascii :=
  match s with
  | EmptyString => None
  | String c _ => Some c
  end.

Fixpoint last_char (s : string) : option ascii :=
  match s with
  | EmptyString => None
  | String c EmptyString => Some c
  | String _ s' => last_char s'
  end.

(** How many characters of the string the escaping prefixes. *)
Fixpoint specials (s : string) : nat :=
  match s with
  | EmptyString => O
  | String c s' => (if JS.shell_special c then 1 else 0) + specials s'
  end.

(** The command is addressed to the device: [adb -s <id> ...]. *)
Definition addressed_to (id : string) (cmd : string) : Prop :=
  exists rest, cmd = "adb -s " +:+ id +:+ String " "%char rest.

(** What [getAndroidDeviceId()] has for the output of [adb devices]: what
    the command printed, or the empty string when it failed. *)
Definition device_listing {D}
    (command : string -> Z -> World D -> Settled * World D) (st : State D)
  : string :=
  match fst (command "adb devices" 3000 (world st)) with
  | Fulfilled stdout => stdout
  | Rejected => EmptyString
  end.

(** The emulator's debug bridge with the given devices attached. *)
Definition adb_with_devices (ids : list string) (cmd : string) (timeout : Z)
    (w : World Emulator.Device) : Settled * World Emulator.Device :=
  if String.eqb cmd "adb devices" then
    (Fulfilled
       (adb_devices_output "List of devices attached"
          (map (fun id => (id, "device")) ids)), w)
  else Emulator.adb cmd timeout w.

(** A user who takes what the prompt proposes. *)
Definition accept_default (choices : list string) (default : option string)
  : option string := default.

(** A transport that serves no command unless it is given exactly three
    seconds. *)
Definition three_seconds_only (cmd : string) (timeout : Z)
    (w : World Emulator.Device) : Settled * World Emulator.Device :=
  if timeout =? 3000 then Emulator.adb cmd timeout w else (Rejected, w).

(** A transport that does what the emulator does and then reports every
    command as failed (as a command does that overruns its timeout after
    its work is done). *)
Definition late_adb (cmd : string) (timeout : Z)
    (w : World Emulator.Device) : Settled * World Emulator.Device :=
  (Rejected, snd (Emulator.adb cmd timeout w)).

(** The state [execute] leaves when it has issued [cmd]: as the command
    settled, with the error line when it was rejected. *)
Definition after_command {D}
    (command : string -> Z -> World D -> Settled * World D)
    (cmd : string) (st : State D) : Completion unit * State D :=
  match command cmd 3000 (world st) with
  | (Fulfilled _, w) =>
      (Return tt,
       {| this := this st; world := w; issued := issued st ++ [cmd];
          opened := opened st; logged := logged st |})
  | (Rejected, w) =>
      (Throw (CommandFailed cmd),
       {| this := this st; world := w; issued := issued st ++ [cmd];
          opened := opened st;
          logged := logged st ++
            [(error, "[AdbOperator] Error:",
              [LoggedError (CommandFailed cmd)])] |})
  end.

(** ** Reading a payload back *)

(** The place of a character in an alphabet, counted from [from]. *)
Fixpoint index_in (c : ascii) (alphabet : string) (from : N) : option N :=
  match alphabet with
  | EmptyString => None
  | String d rest =>
      if Ascii.eqb c d then Some from else index_in c rest (N.succ from)
  end.

(** The six bits a base64 character stands for; the padding character
    stands for none. *)
Definition base64_value (c : ascii) : option N :=
  index_in c JS.base64_alphabet 0.

Definition byte_of (n : N) : byte :=
  match Byte.of_N n with
  | Some b => b
  | None => Byte.x00
  end.

(** Base64 text read back, four characters at a time, up to the padding. *)
Fixpoint from_base64 (s : string) : list byte :=
  match s with
  | String c0 (String c1 (String c2 (String c3 rest))) =>
      match base64_value c0, base64_value c1 with
      | Some v0, Some v1 =>
          byte_of (v0 * 4 + v1 / 16) ::
          match base64_value c2 with
          | Some v2 =>
              byte_of ((v1 mod 16) * 16 + v2 / 4) ::
              match base64_value c3 with
              | Some v3 => byte_of ((v2 mod 4) * 64 + v3) :: from_base64 rest
              | None => []
              end
          | None => []
          end
      | _, _ => []
      end
  | _ => []
  end%N.

(** The numbers a byte can hold. *)
Definition byte_range : list N := map N.of_nat (seq 0 256).

(** The six-bit groups taken from two neighbouring bytes are below 64,
    and each is the part of the bytes it is meant to be. *)
Definition sextets_sound (a b : N) : bool :=
  ((JS.sextet0 a <? 64) && (JS.sextet1 a b <? 64) && (JS.sextet2 a b <? 64) &&
   (JS.sextet3 a <? 64) &&
   (JS.sextet0 a =? a / 4) &&
   (JS.sextet1 a b / 16 =? a mod 4) && (JS.sextet1 a b mod 16 =? b / 16) &&
   (JS.sextet2 a b / 4 =? a mod 16) && (JS.sextet2 a b mod 4 =? b / 64) &&
   (JS.sextet3 a =? a mod 64))%N.

(** * Properties *)

(** ** Strings *)

Lemma trimEnd_empty s :
  JS.trimEnd s = EmptyString <-> whitespace_only s = true.
Proof.
  induction s as [|c s IH]; simpl; [tauto|].
  destruct (JS.trimEnd s) eqn:E.
  - destruct (JS.isWhiteSpace c); simpl; [tauto|].
    split; discriminate.
  - split; [discriminate|].
    intros H. apply andb_true_iff in H as [_ H].
    apply IH in H. discriminate.
Qed.

Lemma trimStart_whitespace_only s :
  whitespace_only s = true -> JS.trimStart s = EmptyString.
Proof.
  induction s as [|c s IH]; simpl; [reflexivity|].
  destruct (JS.isWhiteSpace c); simpl; [exact IH|discriminate].
Qed.

Lemma whitespace_only_trimStart s :
  whitespace_only (JS.trimStart s) = whitespace_only s.
Proof.
  induction s as [|c s IH]; simpl; [reflexivity|].
  destruct (JS.isWhiteSpace c) eqn:E; simpl; [exact IH|].
  rewrite E. reflexivity.
Qed.

(** Content trims to the empty string exactly when it is white space only. *)
Lemma trim_truthy s : JS.truthy (JS.trim s) = negb (whitespace_only s).
Proof.
  unfold JS.trim.
  rewrite <- (whitespace_only_trimStart s).
  destruct (whitespace_only (JS.trimStart s)) eqn:E.
  - apply trimEnd_empty in E. rewrite E. reflexivity.
  - destruct (JS.trimEnd (JS.trimStart s)) eqn:E'; [|reflexivity].
    apply trimEnd_empty in E'. congruence.
Qed.

(** The regular-expression replacement does what the specification says. *)
Lemma replace_shell_special_escaped s :
  JS.replace_shell_special s = shell_escaped s.
Proof.
  unfold shell_escaped.
  induction s as [|c s IH]; simpl; [reflexivity|].
  unfold escaped_char. rewrite IH.
  destruct (JS.shell_special c); reflexivity.
Qed.

Lemma length_append (a b : string) :
  String.length (a +:+ b) = (String.length a + String.length b)%nat.
Proof. induction a as [|c a IH]; simpl; [reflexivity|]. rewrite IH. reflexivity. Qed.

Lemma append_inv_tail (a b t : string) : a +:+ t = b +:+ t -> a = b.
Proof.
  revert b. induction a as [|c a IH]; intros [|d b] H; simpl in H.
  - reflexivity.
  - apply (f_equal String.length) in H.
    rewrite !length_append in H. simpl in H. lia.
  - apply (f_equal String.length) in H.
    rewrite !length_append in H. simpl in H. lia.
  - simpl in H. injection H as -> H. f_equal. apply IH, H.
Qed.

(** Nothing is lost in the escaping: read back, the text is the content. *)
Lemma unescaped_shell_escaped s : unescaped (shell_escaped s) = s.
Proof.
  induction s as [|c s IH]; [reflexivity|].
  change (shell_escaped (String c s))
    with (escaped_char c +:+ shell_escaped s).
  set (rest := shell_escaped s) in *. clearbody rest.
  unfold escaped_char.
  destruct (JS.shell_special c) eqn:E.
  - change (String JS.backslash (String c EmptyString) +:+ rest)
      with (String JS.backslash (String c rest)).
    cbn. rewrite IH. reflexivity.
  - assert (Hc : Ascii.eqb c JS.backslash = false).
    { destruct (Ascii.eqb_spec c JS.backslash) as [->|]; [|reflexivity].
      discriminate E. }
    change (String c EmptyString +:+ rest) with (String c rest).
    cbn [unescaped]. rewrite Hc, IH. reflexivity.
Qed.

Example trim_both_ends : JS.trim "  tap here  " = "tap here".
Proof. reflexivity. Qed.

Example trim_line_ends :
  JS.trim (String "010"%char (String "009"%char "ok" +:+ String "013"%char "")) = "ok".
Proof. reflexivity. Qed.

Example round_half_up :
  JS.Math_round (JS.Finite (5 # 2)) = JS.Finite 3 /\
  JS.Math_round (JS.Finite (-5 # 2)) = JS.Finite (-2) /\
  JS.Math_round JS.NaN = JS.NaN.
Proof. repeat split; reflexivity. Qed.

(** Numbers as a template literal shows them: every digit up to 2^53, the
    shortest digits that identify the double beyond, exponent notation
    from 10^21 on. *)
Example numbers_in_template_literals :
  JS.Number_toString (JS.Finite 1600) = "1600" /\
  JS.Number_toString (JS.Finite (-7)) = "-7" /\
  JS.Number_toString (JS.Finite (2 ^ 53)) = "9007199254740992" /\
  JS.Number_toString (JS.Finite (2 ^ 60)) = "1152921504606847000" /\
  JS.Number_toString (JS.Finite (10 ^ 21)) = "1e+21" /\
  JS.Number_toString (JS.Finite (5 * 10 ^ 21)) = "5e+21" /\
  JS.Number_toString (JS.Finite (- 2 ^ 70)) = "-1.1805916207174113e+21" /\
  JS.Number_toString JS.NaN = "NaN" /\
  JS.Number_toString JS.MinusInfinity = "-Infinity".
Proof. repeat split; vm_compute; reflexivity. Qed.

Example base64_padding :
  JS.toString_base64 (String.list_byte_of_string "Man") = "TWFu" /\
  JS.toString_base64 (String.list_byte_of_string "Ma") = "TWE=" /\
  JS.toString_base64 (String.list_byte_of_string "M") = "TQ==".
Proof. repeat split; reflexivity. Qed.

Example resolve_point :
  resolved (CoordinateMapper.resolve "0.5,0.5" 1000 2000) =
  Some (JS.Finite ((5 # 10) * 1000)%Q, JS.Finite ((5 # 10) * 2000)%Q).
Proof. reflexivity. Qed.

Example resolve_malformed :
  resolved (CoordinateMapper.resolve EmptyString 1000 2000) = None /\
  resolved (CoordinateMapper.resolve "a,b" 1000 2000) = None /\
  resolved (CoordinateMapper.resolve "0.5" 1000 2000) = None.
Proof. repeat split; reflexivity. Qed.

(** The encoding of the two example files, as any base64 encoder gives
    it. *)
Example base64_of_fresh_capture :
  JS.toString_base64 Emulator.fresh_capture =
  "iVBORw0KGgoAAAANSUhEUgAAAAMAAAAFCAIAAAAPE8H1AAAADklEQVR42mP4DwMMRLIAYQks1OXGpboAAAAASUVORK5CYII=".
Proof. vm_compute. reflexivity. Qed.

Example base64_of_stale_capture :
  JS.toString_base64 Emulator.stale_capture =
  "iVBORw0KGgoAAAANSUhEUgAAAAIAAAAECAIAAAArjXluAAAAC0lEQVR42mNgwA0AABwAAcdGaXkAAAAASUVORK5CYII=".
Proof. vm_compute. reflexivity. Qed.

(** ** Trimming and escaping *)

Lemma free_of_append c a b :
  free_of c (a +:+ b) = free_of c a && free_of c b.
Proof.
  induction a as [|d a IH]; [reflexivity|].
  change (String d a +:+ b) with (String d (a +:+ b)).
  cbn [free_of]. rewrite IH. apply andb_assoc.
Qed.

Lemma append_assoc (a b c : string) : (a +:+ b) +:+ c = a +:+ (b +:+ c).
Proof.
  induction a as [|d a IH]; [reflexivity|].
  change (String d (a +:+ b) +:+ c = String d (a +:+ (b +:+ c))).
  change (String d ((a +:+ b) +:+ c) = String d (a +:+ (b +:+ c))).
  rewrite IH. reflexivity.
Qed.

(** Trimming takes characters away and adds none. *)
Lemma trimStart_free c s :
  free_of c s = true -> free_of c (JS.trimStart s) = true.
Proof.
  induction s as [|d s IH]; [reflexivity|].
  intros H. cbn [JS.trimStart].
  destruct (JS.isWhiteSpace d); [|exact H].
  cbn [free_of] in H. apply andb_true_iff in H as [_ H]. auto.
Qed.

Lemma trimEnd_free c s :
  free_of c s = true -> free_of c (JS.trimEnd s) = true.
Proof.
  induction s as [|d s IH]; [reflexivity|].
  cbn [free_of JS.trimEnd]. intros H.
  apply andb_true_iff in H as [Hd Hs]. specialize (IH Hs).
  destruct (JS.trimEnd s) as [|e t].
  - destruct (JS.isWhiteSpace d); [reflexivity|].
    cbn [free_of]. rewrite Hd. reflexivity.
  - change (free_of c (String d (String e t)) = true).
    cbn [free_of] in *. rewrite Hd. exact IH.
Qed.

Lemma trim_free c s : free_of c s = true -> free_of c (JS.trim s) = true.
Proof. intros H. apply trimEnd_free, trimStart_free, H. Qed.

(** What is left of a trimmed string starts and ends on characters that
    are not white space. *)
Lemma trimStart_first s c :
  first_char (JS.trimStart s) = Some c -> JS.isWhiteSpace c = false.
Proof.
  induction s as [|d s IH]; [discriminate|].
  cbn [JS.trimStart]. destruct (JS.isWhiteSpace d) eqn:E; [exact IH|].
  intros [= <-]. exact E.
Qed.

Lemma trimEnd_last s c :
  last_char (JS.trimEnd s) = Some c -> JS.isWhiteSpace c = false.
Proof.
  induction s as [|d s IH]; [discriminate|].
  cbn [JS.trimEnd]. destruct (JS.trimEnd s) as [|e t].
  - destruct (JS.isWhiteSpace d) eqn:E; [discriminate|].
    intros [= <-]. exact E.
  - exact IH.
Qed.

Lemma trimEnd_first s :
  JS.trimEnd s <> EmptyString -> first_char (JS.trimEnd s) = first_char s.
Proof.
  destruct s as [|d s]; [reflexivity|].
  cbn [JS.trimEnd]. destruct (JS.trimEnd s).
  - destruct (JS.isWhiteSpace d); [congruence|reflexivity].
  - reflexivity.
Qed.

(** A string that starts and ends on characters that are not white space
    is left as it is. *)
Lemma trimStart_fixed s :
  (forall c, first_char s = Some c -> JS.isWhiteSpace c = false) ->
  JS.trimStart s = s.
Proof.
  destruct s as [|d s]; [reflexivity|].
  intros H. cbn [JS.trimStart]. rewrite (H d eq_refl). reflexivity.
Qed.

Lemma trimEnd_fixed s :
  (forall c, last_char s = Some c -> JS.isWhiteSpace c = false) ->
  JS.trimEnd s = s.
Proof.
  induction s as [|d s IH]; [reflexivity|].
  intros H. cbn [JS.trimEnd].
  destruct s as [|e t].
  - cbn [JS.trimEnd]. rewrite (H d eq_refl). reflexivity.
  - rewrite IH; [reflexivity|].
    intros c Hc. apply H. exact Hc.
Qed.

Lemma trim_fixed s :
  (forall c, first_char s = Some c -> JS.isWhiteSpace c = false) ->
  (forall c, last_char s = Some c -> JS.isWhiteSpace c = false) ->
  JS.trim s = s.
Proof.
  intros Hf Hl. unfold JS.trim. rewrite (trimStart_fixed s Hf).
  apply trimEnd_fixed, Hl.
Qed.

Lemma trim_ends s :
  (forall c, first_char (JS.trim s) = Some c -> JS.isWhiteSpace c = false) /\
  (forall c, last_char (JS.trim s) = Some c -> JS.isWhiteSpace c = false).
Proof.
  unfold JS.trim. split; [|apply trimEnd_last].
  intros c Hc.
  destruct (JS.trimEnd (JS.trimStart s)) eqn:E; [discriminate|].
  rewrite <- E in Hc. rewrite trimEnd_first in Hc by congruence.
  eapply trimStart_first, Hc.
Qed.

Lemma trim_idempotent s : JS.trim (JS.trim s) = JS.trim s.
Proof. apply trim_fixed; apply trim_ends. Qed.

Lemma not_special c :
  JS.shell_special c = false ->
  Ascii.eqb c JS.backslash = false /\ Ascii.eqb c "034"%char = false.
Proof.
  intros H. split.
  - destruct (Ascii.eqb_spec c JS.backslash) as [->|]; [discriminate H|reflexivity].
  - destruct (Ascii.eqb_spec c "034"%char) as [->|]; [discriminate H|reflexivity].
Qed.

Lemma trimStart_append pre s :
  whitespace_only pre = true -> JS.trimStart (pre +:+ s) = JS.trimStart s.
Proof.
  induction pre as [|c pre IH]; [reflexivity|].
  cbn [whitespace_only]. intros H. apply andb_true_iff in H as [Hc Hpre].
  change (String c pre +:+ s) with (String c (pre +:+ s)).
  cbn [JS.trimStart]. rewrite Hc. apply IH, Hpre.
Qed.

Lemma trimEnd_append core post :
  whitespace_only post = true ->
  (forall c, last_char core = Some c -> JS.isWhiteSpace c = false) ->
  JS.trimEnd (core +:+ post) = core.
Proof.
  intros Hpost. induction core as [|c core IH]; intros Hlast.
  - apply trimEnd_empty, Hpost.
  - change (String c core +:+ post) with (String c (core +:+ post)).
    cbn [JS.trimEnd]. destruct core as [|d core].
    + change (EmptyString +:+ post) with post.
      rewrite (proj2 (trimEnd_empty post) Hpost), (Hlast c eq_refl).
      reflexivity.
    + rewrite IH; [reflexivity|]. intros e He. apply Hlast. exact He.
Qed.

(** White space, a core that starts and ends on other characters, white
    space again: trimming leaves the core. *)
Lemma trim_core pre core post :
  whitespace_only pre = true -> whitespace_only post = true ->
  (forall c, first_char core = Some c -> JS.isWhiteSpace c = false) ->
  (forall c, last_char core = Some c -> JS.isWhiteSpace c = false) ->
  JS.trim (pre +:+ core +:+ post) = core.
Proof.
  intros Hpre Hpost Hfirst Hlast. unfold JS.trim.
  rewrite (trimStart_append pre _ Hpre).
  destruct core as [|c core].
  - change (EmptyString +:+ post) with post.
    rewrite (trimStart_whitespace_only post Hpost). reflexivity.
  - change (String c core +:+ post) with (String c (core +:+ post)).
    cbn [JS.trimStart]. rewrite (Hfirst c eq_refl).
    apply (trimEnd_append (String c core) post Hpost Hlast).
Qed.

(** Trimming only takes white space away, and only from the ends. *)
Lemma trimStart_split s :
  exists pre, s = pre +:+ JS.trimStart s /\ whitespace_only pre = true.
Proof.
  induction s as [|c s (pre & E & Hpre)]; [exists EmptyString; auto|].
  cbn [JS.trimStart]. destruct (JS.isWhiteSpace c) eqn:Hc.
  - exists (String c pre). split.
    + change (String c pre +:+ JS.trimStart s)
        with (String c (pre +:+ JS.trimStart s)).
      rewrite <- E. reflexivity.
    + cbn [whitespace_only]. rewrite Hc, Hpre. reflexivity.
  - exists EmptyString. auto.
Qed.

Lemma trimEnd_split s :
  exists post, s = JS.trimEnd s +:+ post /\ whitespace_only post = true.
Proof.
  induction s as [|c s (post & E & Hpost)]; [exists EmptyString; auto|].
  cbn [JS.trimEnd]. destruct (JS.trimEnd s) as [|d t] eqn:Et.
  - change (EmptyString +:+ post) with post in E. subst post.
    destruct (JS.isWhiteSpace c) eqn:Hc.
    + exists (String c s). split; [reflexivity|].
      cbn [whitespace_only]. rewrite Hc, Hpost. reflexivity.
    + exists s. auto.
  - exists post. split; [|exact Hpost].
    change (String c (String d t) +:+ post)
      with (String c (String d t +:+ post)).
    rewrite <- E. reflexivity.
Qed.

Lemma trim_split s :
  exists pre post,
    s = pre +:+ JS.trim s +:+ post /\
    whitespace_only pre = true /\ whitespace_only post = true.
Proof.
  destruct (trimStart_split s) as (pre & E & Hpre).
  destruct (trimEnd_split (JS.trimStart s)) as (post & E' & Hpost).
  exists pre, post. unfold JS.trim.
  rewrite <- E', <- E. auto.
Qed.

(** The two character classes, spelled out. *)
Lemma isWhiteSpace_codes c :
  JS.isWhiteSpace c = true <->
  In (N_of_ascii c) [9; 10; 11; 12; 13; 32; 160]%N.
Proof.
  unfold JS.isWhiteSpace. split.
  - intros H. repeat case_match; try discriminate; cbn; lia.
  - intros [<-|[<-|[<-|[<-|[<-|[<-|[<-|[]]]]]]]]; reflexivity.
Qed.

Lemma shell_special_codes c :
  JS.shell_special c = true <-> In (N_of_ascii c) [39; 34; 92]%N.
Proof.
  unfold JS.shell_special. rewrite !orb_true_iff, !N.eqb_eq.
  cbn [In]. intuition congruence.
Qed.

(** ** Numbers in commands *)

Lemma Math_round_nearest q : nearest q (Qfloor (q + (1 # 2))).
Proof.
  pose proof (Qfloor_le (q + (1 # 2))) as Hle.
  pose proof (Qlt_floor (q + (1 # 2))) as Hlt.
  rewrite inject_Z_plus in Hlt. split.
  - apply (Qplus_le_l _ _ (1 # 2)). ring_simplify.
    ring_simplify in Hle. exact Hle.
  - apply (Qplus_lt_l _ _ (1 # 2)).
    eapply Qlt_le_trans; [exact Hlt|].
    apply Qle_lteq. right. ring.
Qed.

(** There is one nearest integer, and [Math.round] gives it. *)
Lemma nearest_unique q n : nearest q n -> n = Qfloor (q + (1 # 2)).
Proof.
  intros [Hlow Hhigh].
  assert (Hle : n <= Qfloor (q + (1 # 2))).
  { rewrite <- (Qfloor_Z n). apply Qfloor_resp_le.
    apply (Qplus_le_l _ _ (- (1 # 2))). ring_simplify.
    ring_simplify in Hlow. exact Hlow. }
  assert (Hlt : Qfloor (q + (1 # 2)) < n + 1).
  { rewrite Zlt_Qlt. eapply Qle_lt_trans; [apply Qfloor_le|].
    rewrite inject_Z_plus.
    apply (Qplus_lt_l _ _ (- (1 # 2))). ring_simplify.
    ring_simplify in Hhigh. exact Hhigh. }
  lia.
Qed.












(** ** Rounds and their files *)

Lemma incr_le n : n <= JS.incr n.
Proof. unfold JS.incr. destruct (n <? JS.MAX_SAFE); lia. Qed.

Lemma incr_exact n : n < JS.MAX_SAFE -> JS.incr n = n + 1.
Proof.
  intros H. unfold JS.incr.
  destruct (Z.ltb_spec n JS.MAX_SAFE); [reflexivity|lia].
Qed.

Lemma resolve_round_file n :
  resolve_path (round_file n) =
  "uitars_screenshot_" +:+ JS.SafeInteger_toString n +:+ ".png".
Proof. reflexivity. Qed.

(** Different rounds have different files. *)
Lemma round_file_inj a b :
  resolve_path (round_file a) = resolve_path (round_file b) -> a = b.
Proof.
  rewrite !resolve_round_file. intros H.
  apply String.app_inj in H. apply append_inv_tail in H.
  apply (inj pretty) in H. exact H.
Qed.

(** No round has [uitars_screenshot.png] for its file. *)
Lemma round_file_not_payload n :
  resolve_path (round_file n) <> resolve_path "uitars_screenshot.png".
Proof. rewrite resolve_round_file. simpl. discriminate. Qed.

(** ** The action dispatcher *)

Section ExecuteFacts.

Context {Device : Type}.
Variable command : string -> Z -> World Device -> Settled * World Device.
Variable parseBoxToScreenCoords : string -> Z -> Z -> Coords.

Local Abbreviation exec := (execute command parseBoxToScreenCoords).

(** What one awaited command without a handler leaves behind, inside the
    [try] of [execute]. *)
Lemma execute_command cmd (st : State Device) :
  try_catch
    (bind (commandWithTimeout command cmd) (fun _ => ret tt))
    execute_rethrow st =
  match command cmd 3000 (world st) with
  | (Fulfilled _, w) =>
      (Return tt,
       {| this := this st; world := w; issued := issued st ++ [cmd];
          opened := opened st; logged := logged st |})
  | (Rejected, w) =>
      (Throw (CommandFailed cmd),
       {| this := this st; world := w; issued := issued st ++ [cmd];
          opened := opened st;
          logged := logged st ++
            [(error, "[AdbOperator] Error:",
              [LoggedError (CommandFailed cmd)])] |})
  end.
Proof.
  unfold try_catch, bind, commandWithTimeout, execute_rethrow, logger, throw, ret.
  destruct (command cmd 3000 (world st)) as [[out|] w]; reflexivity.
Qed.

Lemma execute_issue (build : AdbOperator -> string) (st : State Device) :
  try_catch
    (bind get_this (fun op =>
       bind (commandWithTimeout command (build op)) (fun _ => ret tt)))
    execute_rethrow st =
  match command (build (this st)) 3000 (world st) with
  | (Fulfilled _, w) =>
      (Return tt,
       {| this := this st; world := w;
          issued := issued st ++ [build (this st)];
          opened := opened st; logged := logged st |})
  | (Rejected, w) =>
      (Throw (CommandFailed (build (this st))),
       {| this := this st; world := w;
          issued := issued st ++ [build (this st)];
          opened := opened st;
          logged := logged st ++
            [(error, "[AdbOperator] Error:",
              [LoggedError (CommandFailed (build (this st)))])] |})
  end.
Proof. apply (execute_command (build (this st)) st). Qed.

(** [execute] is its three log lines followed by the guarded [switch]. *)
Lemma execute_unfold params (st : State Device) :
  exec params st =
  try_catch
    (execute_switch command parseBoxToScreenCoords
       (action_type (parsedPrediction params))
       (action_inputs (parsedPrediction params))
       (screenWidth params) (screenHeight params)
       (x (parseBoxToScreenCoords
             (JS.or_empty (start_box (action_inputs (parsedPrediction params))))
             (screenWidth params) (screenHeight params)))
       (y (parseBoxToScreenCoords
             (JS.or_empty (start_box (action_inputs (parsedPrediction params))))
             (screenWidth params) (screenHeight params))))
    execute_rethrow (execute_entered parseBoxToScreenCoords params st).
Proof.
  unfold execute, execute_entered, opening_lines.
  unfold bind at 1 2 3, logger at 1 2 3. cbv beta iota zeta.
  cbn [this world issued opened logged].
  rewrite <- !app_assoc. reflexivity.
Qed.

Lemma issued_after_issue (build : AdbOperator -> string) (st : State Device) :
  issued (snd (try_catch
    (bind get_this (fun op =>
       bind (commandWithTimeout command (build op)) (fun _ => ret tt)))
    execute_rethrow st)) = issued st ++ [build (this st)].
Proof.
  rewrite execute_issue.
  destruct (command _ 3000 _) as [[out|] w]; reflexivity.
Qed.


Lemma type_issued inputs w h (st : State Device) :
  issued (snd (exec (action_params "type" inputs w h) st)) =
  issued st ++
    match content inputs with
    | Some text =>
        if whitespace_only text then []
        else [text_command (this st) (shell_escaped (JS.trim text))]
    | None => []
    end.
Proof.
  rewrite execute_unfold. unfold execute_switch; simpl.
  destruct (content inputs) as [text|]; simpl;
    [|symmetry; apply app_nil_r].
  rewrite trim_truthy.
  destruct (whitespace_only text); simpl; [symmetry; apply app_nil_r|].
  rewrite replace_shell_special_escaped.
  apply (issued_after_issue
           (fun op => text_command op (shell_escaped (JS.trim text)))
           (execute_entered _ _ st)).
Qed.


Lemma unsupported_outcome type inputs w h (st : State Device) :
  type <> "click" -> type <> "type" -> type <> "swipe" ->
  exec (action_params type inputs w h) st =
  (Return tt,
   {| this := this st; world := world st; issued := issued st;
      opened := opened st;
      logged := logged (execute_entered parseBoxToScreenCoords
                          (action_params type inputs w h) st) ++
                [(warn, "[AdbOperator] Unsupported action: " +:+ type,
                  [])] |}).
Proof.
  intros Hc Ht Hs.
  rewrite execute_unfold. unfold execute_switch; simpl.
  apply String.eqb_neq in Hc, Ht, Hs. rewrite Hc, Ht, Hs.
  reflexivity.
Qed.

(** Every call either issues nothing and returns, or issues one command
    and completes as that command settles. *)
Lemma execute_outcome params (st : State Device) :
  (issued (snd (exec params st)) = issued st /\
   fst (exec params st) = Return tt) \/
  (exists cmd,
     issued (snd (exec params st)) = issued st ++ [cmd] /\
     fst (exec params st) =
     match fst (command cmd 3000 (world st)) with
     | Fulfilled _ => Return tt
     | Rejected => Throw (CommandFailed cmd)
     end).
Proof.
  rewrite execute_unfold. unfold execute_switch.
  set (c := parseBoxToScreenCoords _ _ _).
  assert (Hissue : forall build,
    exists cmd,
      issued (snd (try_catch
        (bind get_this (fun op =>
           bind (commandWithTimeout command (build op)) (fun _ => ret tt)))
        execute_rethrow (execute_entered parseBoxToScreenCoords params st))) = issued st ++ [cmd] /\
      fst (try_catch
        (bind get_this (fun op =>
           bind (commandWithTimeout command (build op)) (fun _ => ret tt)))
        execute_rethrow (execute_entered parseBoxToScreenCoords params st)) =
      match fst (command cmd 3000 (world st)) with
      | Fulfilled _ => Return tt
      | Rejected => Throw (CommandFailed cmd)
      end).
  { intros build. exists (build (this st)).
    rewrite execute_issue. simpl.
    destruct (command _ 3000 _) as [[out|] w]; split; reflexivity. }
  destruct (String.eqb _ "click").
  { destruct (x c) as [sx|]; [destruct (y c) as [sy|]|];
      try (left; split; reflexivity).
    right. apply (Hissue (fun op => tap_command op sx sy)). }
  destruct (String.eqb _ "type").
  { destruct (option_map _ _) as [text|]; [|left; split; reflexivity].
    destruct (JS.truthy text); [|left; split; reflexivity].
    right.
    apply (Hissue (fun op => text_command op (JS.replace_shell_special text))). }
  destruct (String.eqb _ "swipe").
  { destruct (end_box _) as [box|]; [|left; split; reflexivity].
    destruct (JS.truthy box); [|left; split; reflexivity].
    destruct (x c) as [sx|]; [|left; split; reflexivity].
    destruct (y c) as [sy|]; [|left; split; reflexivity].
    destruct (x (parseBoxToScreenCoords box _ _)) as [ex|];
      [|left; split; reflexivity].
    destruct (y (parseBoxToScreenCoords box _ _)) as [ey|];
      [|left; split; reflexivity].
    right. apply (Hissue (fun op => swipe_command op sx sy ex ey)). }
  left. split; reflexivity.
Qed.

(** [execute] takes the device identifier from the instance and nothing
    else: the counter may hold anything, and is handed back as it was. *)
Lemma execute_ignores_round params (st : State Device) round :
  exec params (with_round round st) =
  (fst (exec params st), with_round round (snd (exec params st))).
Proof.
  rewrite !execute_unfold. unfold execute_switch.
  set (c := parseBoxToScreenCoords _ _ _).
  assert (Hissue : forall build : AdbOperator -> string,
    (forall op r, build {| deviceId := deviceId op; currentRound := r |} = build op) ->
    try_catch
      (bind get_this (fun op =>
         bind (commandWithTimeout command (build op)) (fun _ => ret tt)))
      execute_rethrow (execute_entered parseBoxToScreenCoords params
                         (with_round round st)) =
    (fst (try_catch
      (bind get_this (fun op =>
         bind (commandWithTimeout command (build op)) (fun _ => ret tt)))
      execute_rethrow (execute_entered parseBoxToScreenCoords params st)),
     with_round round (snd (try_catch
      (bind get_this (fun op =>
         bind (commandWithTimeout command (build op)) (fun _ => ret tt)))
      execute_rethrow (execute_entered parseBoxToScreenCoords params st))))).
  { intros build Hbuild. rewrite !execute_issue.
    cbn [this world with_round execute_entered]. rewrite Hbuild.
    destruct (command _ 3000 _) as [[out|] w]; reflexivity. }
  destruct (String.eqb _ "click").
  { destruct (x c) as [sx|]; [destruct (y c) as [sy|]|]; try reflexivity.
    apply (Hissue (fun op => tap_command op sx sy)). reflexivity. }
  destruct (String.eqb _ "type").
  { destruct (option_map _ _) as [text|]; [|reflexivity].
    destruct (JS.truthy text); [|reflexivity].
    apply (Hissue (fun op => text_command op (JS.replace_shell_special text))).
    reflexivity. }
  destruct (String.eqb _ "swipe").
  { destruct (end_box _) as [box|]; [|reflexivity].
    destruct (JS.truthy box); [|reflexivity].
    destruct (x c) as [sx|]; [|reflexivity].
    destruct (y c) as [sy|]; [|reflexivity].
    destruct (x (parseBoxToScreenCoords box _ _)) as [ex|]; [|reflexivity].
    destruct (y (parseBoxToScreenCoords box _ _)) as [ey|]; [|reflexivity].
    apply (Hissue (fun op => swipe_command op sx sy ex ey)). reflexivity. }
  reflexivity.
Qed.

Lemma execute_this params (st : State Device) :
  this (snd (exec params st)) = this st.
Proof.
  rewrite execute_unfold. unfold execute_switch.
  set (c := parseBoxToScreenCoords _ _ _).
  assert (Hissue : forall build : AdbOperator -> string,
    this (snd (try_catch
      (bind get_this (fun op =>
         bind (commandWithTimeout command (build op)) (fun _ => ret tt)))
      execute_rethrow (execute_entered parseBoxToScreenCoords params st))) = this st).
  { intros build. rewrite execute_issue.
    destruct (command _ 3000 _) as [[out|] w]; reflexivity. }
  destruct (String.eqb _ "click").
  { destruct (x c) as [sx|]; [destruct (y c) as [sy|]|]; try reflexivity.
    apply (Hissue (fun op => tap_command op sx sy)). }
  destruct (String.eqb _ "type").
  { destruct (option_map _ _) as [text|]; [|reflexivity].
    destruct (JS.truthy text); [|reflexivity].
    apply (Hissue (fun op => text_command op (JS.replace_shell_special text))). }
  destruct (String.eqb _ "swipe").
  { destruct (end_box _) as [box|]; [|reflexivity].
    destruct (JS.truthy box); [|reflexivity].
    destruct (x c) as [sx|]; [|reflexivity].
    destruct (y c) as [sy|]; [|reflexivity].
    destruct (x (parseBoxToScreenCoords box _ _)) as [ex|]; [|reflexivity].
    destruct (y (parseBoxToScreenCoords box _ _)) as [ey|]; [|reflexivity].
    apply (Hissue (fun op => swipe_command op sx sy ex ey)). }
  reflexivity.
Qed.

(** The [switch] reads the log nowhere: run from two states that differ
    in their logs only, it does the same. *)
Lemma execute_switch_alike type inputs w h sx sy (st st' : State Device) :
  this st = this st' -> world st = world st' ->
  issued st = issued st' -> opened st = opened st' ->
  alike
    (try_catch
       (execute_switch command parseBoxToScreenCoords type inputs w h sx sy)
       execute_rethrow st)
    (try_catch
       (execute_switch command parseBoxToScreenCoords type inputs w h sx sy)
       execute_rethrow st').
Proof.
  intros Hthis Hworld Hissued Hopened. unfold execute_switch.
  assert (Hnone : alike (Return tt, st) (Return tt, st')).
  { repeat split; assumption. }
  assert (Hissue : forall build : AdbOperator -> string,
    alike
      (try_catch
         (bind get_this (fun op =>
            bind (commandWithTimeout command (build op)) (fun _ => ret tt)))
         execute_rethrow st)
      (try_catch
         (bind get_this (fun op =>
            bind (commandWithTimeout command (build op)) (fun _ => ret tt)))
         execute_rethrow st')).
  { intros build. rewrite !execute_issue, <- Hthis, <- Hworld.
    destruct (command _ 3000 _) as [[out|] w0]; repeat split;
      cbn [fst snd this world issued opened]; congruence. }
  destruct (String.eqb type "click").
  { destruct sx as [sx|]; [destruct sy as [sy|]|]; try exact Hnone.
    apply (Hissue (fun op => tap_command op sx sy)). }
  destruct (String.eqb type "type").
  { destruct (option_map _ _) as [text|]; [|exact Hnone].
    destruct (JS.truthy text); [|exact Hnone].
    apply (Hissue (fun op => text_command op (JS.replace_shell_special text))). }
  destruct (String.eqb type "swipe").
  { destruct (end_box _) as [box|]; [|exact Hnone].
    destruct (JS.truthy box); [|exact Hnone].
    destruct sx as [sx|]; [|exact Hnone].
    destruct sy as [sy|]; [|exact Hnone].
    destruct (x (parseBoxToScreenCoords box _ _)) as [ex|]; [|exact Hnone].
    destruct (y (parseBoxToScreenCoords box _ _)) as [ey|]; [|exact Hnone].
    apply (Hissue (fun op => swipe_command op sx sy ex ey)). }
  unfold logger. repeat split; cbn [fst snd this world issued opened];
    assumption.
Qed.

End ExecuteFacts.

(** ** The screenshot pipeline *)

Section ScreenshotFacts.

Context {Device : Type}.
Variable command : string -> Z -> World Device -> Settled * World Device.
Variable decode : list byte -> option (Z * Z).

Local Abbreviation shot := (screenshot command decode).

(** A command with the swallowing handler always hands back a string. *)
Lemma commandWithTimeout_catch_stdout cmd (st : State Device) :
  commandWithTimeout_catch command cmd st =
  (Return (stdout_of (fst (command cmd 3000 (world st)))),
   {| this := this st; world := snd (command cmd 3000 (world st));
      issued := issued st ++ [cmd]; opened := opened st;
      logged := logged st |}).
Proof.
  unfold commandWithTimeout_catch, try_catch, commandWithTimeout.
  destruct (command cmd 3000 (world st)) as [[out|] w]; reflexivity.
Qed.

Lemma commandWithTimeout_catch_run cmd (st : State Device) :
  exists stdout,
    commandWithTimeout_catch command cmd st =
    (Return stdout,
     {| this := this st; world := snd (command cmd 3000 (world st));
        issued := issued st ++ [cmd]; opened := opened st;
        logged := logged st |}).
Proof. eexists. apply commandWithTimeout_catch_stdout. Qed.

(** The whole call, by cases on the files of the host once both commands
    have run. *)
Lemma screenshot_outcome (st : State Device) :
  let st2 := fetched command st in
  let round := currentRound (this st2) in
  shot st =
  match files (world st2) !! resolve_path (round_file round) with
  | Some image =>
      match decode image with
      | Some (w, h) =>
          match files (world st2) !! "uitars_screenshot.png" with
          | Some payload =>
              (Return {| base64 := JS.toString_base64 payload;
                         width := w; height := h; scaleFactor := 1 |},
               add_logged
                 (info, "[AdbOperator] screenshot: " +:+
                        JS.Number_toString (JS.Finite w) +:+ "x" +:+
                        JS.Number_toString (JS.Finite h) +:+
                        ", scaleFactor: 1", [])
                 (add_opened "uitars_screenshot.png" st2))
          | None =>
              (Throw (NoSuchFile "uitars_screenshot.png"),
               add_logged
                 (error, "[AdbOperator] Screenshot error:",
                  [LoggedError (NoSuchFile "uitars_screenshot.png")])
                 (add_opened "uitars_screenshot.png" st2))
          end
      | None =>
          (Throw (DecodeFailed (round_file round)),
           add_logged
             (error, "[AdbOperator] Screenshot error:",
              [LoggedError (DecodeFailed (round_file round))]) st2)
      end
  | None =>
      (Throw (DecodeFailed (round_file round)),
       add_logged
         (error, "[AdbOperator] Screenshot error:",
          [LoggedError (DecodeFailed (round_file round))]) st2)
  end.
Proof.
  intros st2 round. subst st2 round.
  unfold fetched, screenshot, screenshot_enter.
  unfold bind at 1 2, get_this at 1, set_currentRound at 1.
  cbv beta iota zeta.
  unfold try_catch at 1, bind at 1, screenshot_capture.
  unfold bind at 1, get_this at 1. cbv beta iota zeta.
  pose proof (commandWithTimeout_catch_stdout
              (screencap_command (next_round (this st)))
              {| this := next_round (this st); world := world st;
                 issued := issued st; opened := opened st;
                 logged := logged st |}) as E1.
  unfold next_round in *. simpl in E1. simpl. rewrite E1. clear E1.
  unfold bind at 1, screenshot_pull.
  unfold bind at 1 2, logger at 1, get_this at 1. cbv beta iota zeta.
  match goal with
  | |- context [commandWithTimeout_catch command ?c ?s] =>
      pose proof (commandWithTimeout_catch_stdout c s) as E2
  end.
  simpl in E2. simpl. rewrite E2. clear E2.
  unfold bind at 1, screenshot_decode.
  unfold bind at 1 2, logger at 1, get_this at 1. cbv beta iota zeta.
  simpl. unfold Jimp_read, bind at 1, open_file at 1. simpl.
  rewrite <- !app_assoc. simpl.
  destruct (files _ !! _) as [image|]; [|reflexivity].
  destruct (decode image) as [[w h]|]; [|reflexivity].
  unfold ret at 1. simpl.
  unfold screenshot_encode, readFileSync.
  unfold bind at 1 2, open_file at 1. simpl.
  destruct (files _ !! _) as [payload|]; reflexivity.
Qed.

(** Where a result comes from: the size from the file of the round, the
    payload from [uitars_screenshot.png], which is never that file. *)
Lemma screenshot_result_sources (st : State Device) out :
  fst (shot st) = Return out ->
  let host := files (world (snd (shot st))) in
  let round := JS.incr (currentRound (this st)) in
  exists image payload,
    host !! resolve_path (round_file round) = Some image /\
    decode image = Some (width out, height out) /\
    host !! resolve_path "uitars_screenshot.png" = Some payload /\
    base64 out = JS.toString_base64 payload /\
    resolve_path (round_file round) <> resolve_path "uitars_screenshot.png".
Proof.
  cbv zeta. rewrite screenshot_outcome. cbv zeta.
  change (currentRound (this (fetched command st)))
    with (JS.incr (currentRound (this st))).
  destruct (files (world (fetched command st)) !! resolve_path (round_file _))
    as [image|] eqn:Eimage; cbn [fst snd]; [|discriminate].
  destruct (decode image) as [[w h]|] eqn:Edecode; cbn [fst snd];
    [|discriminate].
  destruct (files (world (fetched command st)) !! "uitars_screenshot.png")
    as [payload|] eqn:Epayload; cbn [fst snd]; [|discriminate].
  intros [= <-]. exists image, payload.
  repeat split; auto using round_file_not_payload.
Qed.

Lemma screenshot_this (st : State Device) :
  this (snd (shot st)) = next_round (this st).
Proof.
  rewrite screenshot_outcome. cbv zeta.
  destruct (files _ !! _) as [image|]; [|reflexivity].
  destruct (decode image) as [[w h]|]; [|reflexivity].
  destruct (files _ !! _); reflexivity.
Qed.

Lemma screenshot_issued (st : State Device) :
  issued (snd (shot st)) =
  issued st ++
    round_commands (deviceId (this st)) (JS.incr (currentRound (this st))).
Proof.
  rewrite screenshot_outcome. cbv zeta.
  destruct (files _ !! _) as [image|]; [|reflexivity].
  destruct (decode image) as [[w h]|]; [|reflexivity].
  destruct (files _ !! _); reflexivity.
Qed.

Lemma rounds_after_succ from n :
  rounds_after from (S n) = (from + 1) :: rounds_after (from + 1) n.
Proof.
  unfold rounds_after. simpl. f_equal.
  rewrite <- seq_shift, map_map.
  apply map_ext. intros k. lia.
Qed.

(** Calls made one after the other take the rounds in order, whatever
    becomes of each. *)
Lemma screenshots_run n : forall st : State Device,
  currentRound (this st) + Z.of_nat n <= JS.MAX_SAFE ->
  this (snd (screenshots command decode n st)) =
    {| deviceId := deviceId (this st);
       currentRound := currentRound (this st) + Z.of_nat n |} /\
  issued (snd (screenshots command decode n st)) =
    issued st ++
      flat_map (round_commands (deviceId (this st)))
        (rounds_after (currentRound (this st)) n) /\
  length (fst (screenshots command decode n st)) = n.
Proof.
  induction n as [|n IH]; intros st Hn.
  - simpl. rewrite Z.add_0_r, app_nil_r. destruct (this st); auto.
  - cbn [screenshots].
    destruct (shot st) as [result st1] eqn:E.
    pose proof (screenshot_this st) as Hthis.
    pose proof (screenshot_issued st) as Hissued.
    rewrite E in Hthis, Hissued. simpl in Hthis, Hissued.
    assert (Hround : JS.incr (currentRound (this st)) = currentRound (this st) + 1)
      by (apply incr_exact; lia).
    destruct (IH st1) as (IH1 & IH2 & IH3).
    { rewrite Hthis. simpl. lia. }
    destruct (screenshots command decode n st1) as [results st2].
    cbn [fst snd length] in *.
    rewrite IH1, IH2, IH3, Hissued, Hthis.
    cbn [next_round deviceId currentRound].
    rewrite Hround, rounds_after_succ. cbn [flat_map].
    split; [f_equal; lia|].
    split; [|reflexivity].
    rewrite <- app_assoc. reflexivity.
Qed.

(** *** Calls in flight *)

Local Abbreviation step := (resume command decode).

Lemma segment_catch_command cmd (next : string -> Call) (st : State Device) :
  exists stdout,
    segment (commandWithTimeout_catch command cmd) next st =
    (next stdout,
     {| this := this st; world := snd (command cmd 3000 (world st));
        issued := issued st ++ [cmd]; opened := opened st;
        logged := logged st |}).
Proof.
  destruct (commandWithTimeout_catch_run cmd st) as [out E].
  exists out. unfold segment, try_catch. rewrite E. reflexivity.
Qed.

(** What one turn of a call does, by the point the call has reached. *)
Lemma resume_effect (c : Call) (st : State Device) :
  match c with
  | NotStarted =>
      this (snd (step c st)) = next_round (this st) /\
      issued (snd (step c st)) =
        issued st ++ [screencap_command (next_round (this st))] /\
      opened (snd (step c st)) = opened st /\
      exists out, fst (step c st) = AwaitingCapture out
  | AwaitingCapture _ =>
      this (snd (step c st)) = this st /\
      issued (snd (step c st)) = issued st ++ [pull_command (this st)] /\
      opened (snd (step c st)) = opened st /\
      exists out, fst (step c st) = AwaitingPull out
  | AwaitingPull _ =>
      this (snd (step c st)) = this st /\
      issued (snd (step c st)) = issued st /\
      opened (snd (step c st)) =
        opened st ++ [round_file (currentRound (this st))] /\
      past_decode (fst (step c st))
  | AwaitingDecode _ =>
      this (snd (step c st)) = this st /\
      issued (snd (step c st)) = issued st /\
      opened (snd (step c st)) = opened st ++ ["uitars_screenshot.png"] /\
      exists result, fst (step c st) = Completed result
  | Completed result => step c st = (Completed result, st)
  end.
Proof.
  destruct c as [|out|out|image|result]; cbn [resume].
  - unfold screenshot_capture, screenshot_enter.
    unfold bind, get_this, set_currentRound; cbn [fst snd this].
    match goal with
    | |- context [segment ?m ?k ?s] =>
        change (segment m k s) with
          (segment (commandWithTimeout_catch command
                      (screencap_command (next_round (this st)))) k s);
        destruct (segment_catch_command
                    (screencap_command (next_round (this st))) k s)
          as [o E]
    end.
    rewrite E. cbn. eauto.
  - unfold screenshot_pull, segment, try_catch.
    unfold bind at 1 2, logger at 1, get_this at 1. cbn [this].
    match goal with
    | |- context [commandWithTimeout_catch command ?c ?s] =>
        destruct (commandWithTimeout_catch_run c s) as [o E]
    end.
    cbn in E. cbn. rewrite E. cbn. eauto.
  - unfold screenshot_decode, segment, try_catch.
    unfold bind at 1 2, logger at 1, get_this at 1. cbn [this].
    unfold Jimp_read, bind, open_file. cbn.
    destruct (files _ !! _) as [buf|]; cbn; [|auto].
    destruct (decode buf) as [[w h]|]; cbn; auto.
  - unfold screenshot_encode, segment, try_catch, readFileSync.
    unfold bind, open_file. cbn.
    destruct (files _ !! _) as [buf|]; cbn; eauto.
  - reflexivity.
Qed.

(** The [catch] clause rethrows, so a [try] block can be cut at any
    of its [await]s. *)
Lemma try_catch_bind {A B} (m : M Device A) (k : A -> M Device B) st :
  try_catch (bind m k) screenshot_rethrow st =
  match try_catch m screenshot_rethrow st with
  | (Return a, st') => try_catch (k a) screenshot_rethrow st'
  | (Throw e, st') => (Throw e, st')
  end.
Proof.
  unfold try_catch, bind.
  destruct (m st) as [[a|e] st']; reflexivity.
Qed.

Lemma screenshot_enters (st : State Device) :
  shot st =
  try_catch
    (bind (screenshot_capture command) (fun screencap =>
     bind (screenshot_pull command screencap) (fun pullScreenshot =>
     bind (screenshot_decode decode pullScreenshot) screenshot_encode)))
    screenshot_rethrow (snd (screenshot_enter st)).
Proof. reflexivity. Qed.

(** Run without interruption, the four segments are the call itself. *)
Lemma screenshot_by_segments (st : State Device) :
  resume_times command decode 4 NotStarted st =
  (Completed (fst (shot st)), snd (shot st)).
Proof.
  rewrite screenshot_enters, try_catch_bind.
  cbn [resume_times resume]. unfold segment at 1.
  destruct (try_catch (screenshot_capture command) screenshot_rethrow _)
    as [[out1|e] st1]; cbn [resume]; [|reflexivity].
  rewrite try_catch_bind. unfold segment at 1.
  destruct (try_catch (screenshot_pull command out1) screenshot_rethrow _)
    as [[out2|e] st2]; cbn [resume]; [|reflexivity].
  rewrite try_catch_bind. unfold segment at 1.
  destruct (try_catch (screenshot_decode decode out2) screenshot_rethrow _)
    as [[image|e] st3]; cbn [resume]; [|reflexivity].
  unfold segment at 1.
  destruct (try_catch (screenshot_encode image) screenshot_rethrow _)
    as [[out|e] st4]; reflexivity.
Qed.

(** *** Two calls sharing the instance *)

Lemma drop_own {A} (l extra : list A) : drop (length l) (l ++ extra) = extra.
Proof. induction l; simpl; auto. Qed.

Lemma drop_nothing {A} (l : list A) : drop (length l) l = [].
Proof. induction l; simpl; auto. Qed.

(** A turn of a call, with the footprint it adds to the call. *)
Lemma take_turn_effect (c : InFlight) (st : State Device) :
  let c' := fst (take_turn command decode c st) in
  let st' := snd (take_turn command decode c st) in
  match progress c with
  | NotStarted =>
      this st' = next_round (this st) /\
      ran c' = ran c ++ [screencap_command (next_round (this st))] /\
      read c' = read c /\
      exists out, progress c' = AwaitingCapture out
  | AwaitingCapture _ =>
      this st' = this st /\
      ran c' = ran c ++ [pull_command (this st)] /\
      read c' = read c /\
      exists out, progress c' = AwaitingPull out
  | AwaitingPull _ =>
      this st' = this st /\
      ran c' = ran c /\
      read c' = read c ++ [round_file (currentRound (this st))] /\
      past_decode (progress c')
  | AwaitingDecode _ =>
      this st' = this st /\
      ran c' = ran c /\
      read c' = read c ++ ["uitars_screenshot.png"] /\
      exists result, progress c' = Completed result
  | Completed result =>
      st' = st /\ ran c' = ran c /\ read c' = read c /\
      progress c' = Completed result
  end.
Proof.
  cbv zeta. unfold take_turn.
  pose proof (resume_effect (progress c) st) as H.
  destruct (step (progress c) st) as [p st'] eqn:E.
  cbn [fst snd ran read progress] in *.
  destruct (progress c) as [|o|o|image|result].
  - destruct H as (-> & -> & -> & H).
    rewrite drop_own, drop_nothing, app_nil_r. auto.
  - destruct H as (-> & -> & -> & H).
    rewrite drop_own, drop_nothing, app_nil_r. auto.
  - destruct H as (-> & -> & -> & H).
    rewrite drop_own, drop_nothing, app_nil_r. auto.
  - destruct H as (-> & -> & -> & H).
    rewrite drop_own, drop_nothing, app_nil_r. auto.
  - injection H as -> ->.
    rewrite !drop_nothing, !app_nil_r. auto.
Qed.

(** Each call steps the counter once, when it is made. *)
Lemma turn_calls_made n (p : Calls) who :
  n + 2 <= JS.MAX_SAFE ->
  currentRound (this (shared p)) = n + calls_made p ->
  currentRound (this (shared (turn command decode p who))) =
    n + calls_made (turn command decode p who).
Proof.
  intros Hn Hp. unfold calls_made in *.
  destruct who; unfold turn.
  - pose proof (take_turn_effect (call1 p) (shared p)) as H. cbv zeta in H.
    destruct (take_turn command decode (call1 p) (shared p)) as [c st'].
    cbn [fst snd call1 call2 shared] in *.
    destruct (progress (call1 p)) as [|o|o|image|result];
      destruct H as (Hthis & _ & _ & Hc).
    + destruct Hc as [out ->]. rewrite Hthis. cbn.
      destruct (started (progress (call2 p))); cbn in *;
        rewrite incr_exact; lia.
    + destruct Hc as [out ->]. rewrite Hthis. exact Hp.
    + rewrite Hthis.
      destruct (progress c); try contradiction; exact Hp.
    + destruct Hc as [r ->]. rewrite Hthis. exact Hp.
    + rewrite Hc, Hthis. exact Hp.
  - pose proof (take_turn_effect (call2 p) (shared p)) as H. cbv zeta in H.
    destruct (take_turn command decode (call2 p) (shared p)) as [c st'].
    cbn [fst snd call1 call2 shared] in *.
    destruct (progress (call2 p)) as [|o|o|image|result];
      destruct H as (Hthis & _ & _ & Hc).
    + destruct Hc as [out ->]. rewrite Hthis. cbn.
      destruct (started (progress (call1 p))); cbn in *;
        rewrite incr_exact; lia.
    + destruct Hc as [out ->]. rewrite Hthis. exact Hp.
    + rewrite Hthis.
      destruct (progress c); try contradiction; exact Hp.
    + destruct Hc as [r ->]. rewrite Hthis. exact Hp.
    + rewrite Hc, Hthis. exact Hp.
Qed.

Lemma interleave_calls_made n schedule : forall p : Calls,
  n + 2 <= JS.MAX_SAFE ->
  currentRound (this (shared p)) = n + calls_made p ->
  currentRound (this (shared (fold_left (turn command decode) schedule p))) =
    n + calls_made (fold_left (turn command decode) schedule p).
Proof.
  induction schedule as [|who schedule IH]; intros p Hn Hp; [exact Hp|].
  simpl. apply IH; [exact Hn|]. apply turn_calls_made; assumption.
Qed.

Lemma keeps_to_round_ran id round (c c' : InFlight) cmd :
  keeps_to_round id round c ->
  In cmd (round_commands id round) ->
  ran c' = ran c ++ [cmd] -> read c' = read c ->
  keeps_to_round id round c'.
Proof.
  intros [Hran Hread] Hcmd E1 E2. unfold keeps_to_round.
  rewrite E1, E2. split; [|exact Hread].
  apply Forall_app. split; [exact Hran|]. constructor; [exact Hcmd|constructor].
Qed.

Lemma keeps_to_round_read id round (c c' : InFlight) path :
  keeps_to_round id round c ->
  path = round_file round \/ path = "uitars_screenshot.png" ->
  ran c' = ran c -> read c' = read c ++ [path] ->
  keeps_to_round id round c'.
Proof.
  intros [Hran Hread] Hpath E1 E2. unfold keeps_to_round.
  rewrite E1, E2. split; [exact Hran|].
  apply Forall_app. split; [exact Hread|]. constructor; [exact Hpath|constructor].
Qed.

Lemma keeps_to_round_same id round (c c' : InFlight) :
  keeps_to_round id round c ->
  ran c' = ran c -> read c' = read c ->
  keeps_to_round id round c'.
Proof.
  intros [Hran Hread] E1 E2. unfold keeps_to_round.
  rewrite E1, E2. split; assumption.
Qed.

(** Once the first call is past its decode, nothing either call does
    brings the two onto the same per-round file. *)
Lemma turn_apart id n (p : Calls) who :
  n + 2 <= JS.MAX_SAFE ->
  apart id n p -> apart id n (turn command decode p who).
Proof.
  intros Hn (Hid & Hpast & Hk1 & Hk2 & Hround).
  destruct who; unfold turn.
  - pose proof (take_turn_effect (call1 p) (shared p)) as H. cbv zeta in H.
    destruct (take_turn command decode (call1 p) (shared p)) as [c st'].
    cbn [fst snd] in H. unfold apart. cbn [call1 call2 shared].
    destruct (progress (call1 p)) as [|o|o|image|result];
      try contradiction.
    + destruct H as (Hthis & Hran & Hread & [r Hc]).
      rewrite Hthis, Hc.
      refine (conj Hid (conj I (conj _ (conj Hk2 Hround)))).
      eapply keeps_to_round_read; eauto.
    + destruct H as (Hthis & Hran & Hread & Hc).
      rewrite Hthis, Hc.
      refine (conj Hid (conj I (conj _ (conj Hk2 Hround)))).
      eapply keeps_to_round_same; eauto.
  - pose proof (take_turn_effect (call2 p) (shared p)) as H. cbv zeta in H.
    destruct (take_turn command decode (call2 p) (shared p)) as [c st'].
    cbn [fst snd] in H. unfold apart. cbn [call1 call2 shared].
    destruct (this (shared p)) as [id' round] eqn:Ethis.
    cbn [deviceId currentRound] in Hid, Hround. subst id'.
    destruct (progress (call2 p)) as [|o|o|image|result];
      cbn [started] in Hround; subst round.
    + destruct H as (Hthis & Hran & Hread & [out Hc]).
      rewrite Hthis, Hc. unfold next_round. cbn [deviceId currentRound started].
      rewrite incr_exact by lia.
      replace (n + 1 + 1) with (n + 2) by lia.
      refine (conj eq_refl (conj Hpast (conj Hk1 (conj _ eq_refl)))).
      eapply keeps_to_round_ran; eauto.
      left. reflexivity.
    + destruct H as (Hthis & Hran & Hread & [out Hc]).
      rewrite Hthis, Hc. cbn [deviceId currentRound started].
      refine (conj eq_refl (conj Hpast (conj Hk1 (conj _ eq_refl)))).
      eapply keeps_to_round_ran; eauto.
      right. left. reflexivity.
    + destruct H as (Hthis & Hran & Hread & Hc).
      rewrite Hthis. cbn [deviceId currentRound] in *.
      refine (conj eq_refl (conj Hpast (conj Hk1 (conj _ _)))).
      * eapply keeps_to_round_read with (path := round_file (n + 2)); eauto.
      * destruct (progress c); try contradiction; reflexivity.
    + destruct H as (Hthis & Hran & Hread & [r Hc]).
      rewrite Hthis, Hc. cbn [deviceId currentRound started].
      refine (conj eq_refl (conj Hpast (conj Hk1 (conj _ eq_refl)))).
      eapply keeps_to_round_read; eauto.
    + destruct H as (Hthis & Hran & Hread & Hc).
      rewrite Hthis, Hc, Ethis. cbn [deviceId currentRound started].
      refine (conj eq_refl (conj Hpast (conj Hk1 (conj _ eq_refl)))).
      eapply keeps_to_round_same; eauto.
Qed.

Lemma interleave_apart id n schedule : forall p : Calls,
  n + 2 <= JS.MAX_SAFE ->
  apart id n p -> apart id n (fold_left (turn command decode) schedule p).
Proof.
  induction schedule as [|who schedule IH]; intros p Hn Hp; [exact Hp|].
  simpl. apply IH; [exact Hn|]. apply turn_apart; assumption.
Qed.

(** Three turns of the first call, before the second is made. *)
Lemma apart_after_decode (st : State Device) :
  currentRound (this st) + 2 <= JS.MAX_SAFE ->
  apart (deviceId (this st)) (currentRound (this st))
    (interleave command decode [first; first; first] st).
Proof.
  intros Hn. unfold interleave. cbn [fold_left].
  set (p0 := {| call1 := called; call2 := called; shared := st |}).
  (* the call is made *)
  pose proof (take_turn_effect (call1 p0) (shared p0)) as H1. cbv zeta in H1.
  unfold turn at 3.
  destruct (take_turn command decode (call1 p0) (shared p0)) as [c1 st1].
  cbn [fst snd call1 call2 shared progress called p0 ran read] in H1.
  destruct H1 as (Hthis1 & Hran1 & Hread1 & [out1 Hc1]).
  (* the pull *)
  unfold turn at 2. cbn [call1 call2 shared].
  pose proof (take_turn_effect c1 st1) as H2. cbv zeta in H2.
  destruct (take_turn command decode c1 st1) as [c2 st2].
  cbn [fst snd] in H2. rewrite Hc1 in H2.
  destruct H2 as (Hthis2 & Hran2 & Hread2 & [out2 Hc2]).
  (* the decode *)
  unfold turn. cbn [call1 call2 shared].
  pose proof (take_turn_effect c2 st2) as H3. cbv zeta in H3.
  destruct (take_turn command decode c2 st2) as [c3 st3].
  cbn [fst snd] in H3. rewrite Hc2 in H3.
  destruct H3 as (Hthis3 & Hran3 & Hread3 & Hc3).
  unfold apart. cbn [call1 call2 shared p0 called progress started].
  rewrite Hthis3, Hthis2, Hthis1. unfold next_round.
  cbn [deviceId currentRound].
  rewrite incr_exact by lia.
  refine (conj eq_refl (conj Hc3 (conj (conj _ _) (conj (conj _ _) eq_refl)))).
  - rewrite Hran3, Hran2, Hran1, Hthis1. unfold next_round.
    rewrite incr_exact by lia. cbn [app].
    constructor; [left; reflexivity|].
    constructor; [right; left; reflexivity|constructor].
  - rewrite Hread3, Hread2, Hread1, Hthis2, Hthis1. unfold next_round.
    cbn [currentRound app]. rewrite incr_exact by lia.
    constructor; [left; reflexivity|constructor].
  - constructor.
  - constructor.
Qed.

Lemma screenshot_opened (st : State Device) :
  exists rest,
    opened (snd (shot st)) =
    opened st ++ round_file (JS.incr (currentRound (this st))) :: rest.
Proof.
  rewrite screenshot_outcome. cbv zeta.
  destruct (files _ !! _) as [image|]; [|exists []; reflexivity].
  destruct (decode image) as [[w h]|]; [|exists []; reflexivity].
  destruct (files _ !! _); exists ["uitars_screenshot.png"];
    cbn; rewrite <- app_assoc; reflexivity.
Qed.

(** Different rounds, different files. *)
Lemma rounds_after_files from n :
  NoDup (map (fun round => resolve_path (round_file round))
           (rounds_after from n)).
Proof.
  unfold rounds_after. rewrite map_map.
  assert (Hinj : Inj (=) (=)
            (fun k : nat => resolve_path (round_file (from + Z.of_nat k)))).
  { intros a b H. apply round_file_inj in H. lia. }
  apply (NoDup_fmap_2 _), NoDup_seq.
Qed.

End ScreenshotFacts.

(** * The claims about the action dispatcher *)

Lemma grown_list {A} (l : list A) (a : A) : l ++ [a] <> l.
Proof.
  intros H. apply (f_equal (@length A)) in H.
  rewrite length_app in H. simpl in H. lia.
Qed.




(** C4: typing issues nothing when the content is missing or is white
    space only, and otherwise exactly one text-input command: the content
    is then white space, a core that starts and ends on other characters,
    and white space again, and the text of the command, between double
    quotes, is the core with each single quote, double quote and backslash
    prefixed by a backslash and every other character as it is (so that
    reading the escapes back gives the core again). White space is TAB,
    LF, VT, FF, CR, SP and NBSP. Content of two spaces issues nothing;
    [O'Brien] is sent with a backslash before the apostrophe; content
    with white space around it is sent without. *)
Theorem type_issues_escaped_trimmed_content
    {Device} (command : string -> Z -> World Device -> Settled * World Device)
    (parseBoxToScreenCoords : string -> Z -> Z -> Coords)
    (w h : Z) (st : State Device) :
  let typed inputs :=
    issued (snd (execute command parseBoxToScreenCoords
                   (action_params "type" inputs w h) st)) in
  let text_input escaped :=
    "adb -s " +:+ deviceId (this st) +:+ " shell input text " +:+
    dquote +:+ escaped +:+ dquote in
  (forall inputs,
     content inputs = None \/
     (exists text, content inputs = Some text /\ whitespace_only text = true) ->
     typed inputs = issued st) /\
  (forall inputs pre core post,
     content inputs = Some (pre +:+ core +:+ post) ->
     whitespace_only pre = true -> whitespace_only post = true ->
     core <> EmptyString ->
     (forall c, first_char core = Some c -> JS.isWhiteSpace c = false) ->
     (forall c, last_char core = Some c -> JS.isWhiteSpace c = false) ->
     typed inputs = issued st ++ [text_input (shell_escaped core)]) /\
  (forall text,
     whitespace_only text = true \/
     exists pre core post,
       text = pre +:+ core +:+ post /\
       whitespace_only pre = true /\ whitespace_only post = true /\
       core <> EmptyString /\
       (forall c, first_char core = Some c -> JS.isWhiteSpace c = false) /\
       (forall c, last_char core = Some c -> JS.isWhiteSpace c = false)) /\
  (forall c, JS.isWhiteSpace c = true <->
             In (N_of_ascii c) [9; 10; 11; 12; 13; 32; 160]%N) /\
  (forall c, JS.shell_special c = true <->
             In (N_of_ascii c) [39; 34; 92]%N) /\
  (forall text, unescaped (shell_escaped text) = text) /\
  typed (only_content "  ") = issued st /\
  typed (only_content "O'Brien") = issued st ++ [text_input "O\'Brien"] /\
  typed (only_content (String "009"%char "  hi there " +:+
                       String "010"%char EmptyString)) =
    issued st ++ [text_input "hi there"].
Proof.
  cbv zeta.
  assert (Hcore : forall inputs pre core post,
    content inputs = Some (pre +:+ core +:+ post) ->
    whitespace_only pre = true -> whitespace_only post = true ->
    core <> EmptyString ->
    (forall c, first_char core = Some c -> JS.isWhiteSpace c = false) ->
    (forall c, last_char core = Some c -> JS.isWhiteSpace c = false) ->
    issued (snd (execute command parseBoxToScreenCoords
                   (action_params "type" inputs w h) st)) =
    issued st ++
      ["adb -s " +:+ deviceId (this st) +:+ " shell input text " +:+
       dquote +:+ shell_escaped core +:+ dquote]).
  { intros inputs pre core post E Hpre Hpost Hne Hfirst Hlast.
    rewrite type_issued, E.
    pose proof (trim_truthy (pre +:+ core +:+ post)) as Htruthy.
    rewrite (trim_core pre core post Hpre Hpost Hfirst Hlast) in *.
    destruct core as [|c core]; [contradiction|].
    cbn [JS.truthy] in Htruthy.
    destruct (whitespace_only (pre +:+ String c core +:+ post));
      [discriminate Htruthy|reflexivity]. }
  split.
  { intros inputs [E|(text & E & Hws)]; rewrite type_issued, E, ?Hws;
      apply app_nil_r. }
  split; [exact Hcore|].
  split.
  { intros text. destruct (whitespace_only text) eqn:Hws; [left; reflexivity|].
    right. destruct (trim_split text) as (pre & post & E & Hpre & Hpost).
    exists pre, (JS.trim text), post.
    pose proof (trim_truthy text) as Htruthy. rewrite Hws in Htruthy.
    refine (conj E (conj Hpre (conj Hpost (conj _ (trim_ends text))))).
    intros Hempty. rewrite Hempty in Htruthy. discriminate. }
  split; [exact isWhiteSpace_codes|].
  split; [exact shell_special_codes|].
  split; [exact unescaped_shell_escaped|].
  split.
  { rewrite type_issued. simpl. apply app_nil_r. }
  split.
  { apply (Hcore (only_content "O'Brien") EmptyString "O'Brien" EmptyString);
      try reflexivity; try discriminate; intros c [= <-]; reflexivity. }
  apply (Hcore (only_content
                  (String "009"%char "  hi there " +:+
                   String "010"%char EmptyString))
           (String "009"%char "  ") "hi there"
           (String " "%char (String "010"%char EmptyString)));
    try reflexivity; try discriminate; intros c [= <-]; reflexivity.
Qed.



(** C7: an action of any other type is logged as unsupported (a warning
    naming the type, after the three opening lines), issues no command,
    changes neither the world nor the instance, and returns normally. *)
Theorem unsupported_action_is_logged_and_ignored
    {Device} (command : string -> Z -> World Device -> Settled * World Device)
    (parseBoxToScreenCoords : string -> Z -> Z -> Coords)
    (type : string) (inputs : ActionInputs) (w h : Z) (st : State Device) :
  type <> "click" -> type <> "type" -> type <> "swipe" ->
  let run :=
    execute command parseBoxToScreenCoords (action_params type inputs w h) st in
  fst run = Return tt /\
  issued (snd run) = issued st /\
  world (snd run) = world st /\
  this (snd run) = this st /\
  logged (snd run) =
    logged st ++
      [(info, "[AdbOperator] execute",
        [LoggedPrediction {| action_type := type; action_inputs := inputs |};
         LoggedNumber w; LoggedNumber h]);
       (info, "[AdbOperator] execute",
        [LoggedString type; LoggedInputs inputs;
         LoggedString (JS.or_empty (start_box inputs))]);
       (info, "[AdbOperator] execute",
        [LoggedString type;
         LoggedCoordinate
           (x (parseBoxToScreenCoords (JS.or_empty (start_box inputs)) w h));
         LoggedCoordinate
           (y (parseBoxToScreenCoords (JS.or_empty (start_box inputs)) w h));
         LoggedInputs inputs]);
       (warn, "[AdbOperator] Unsupported action: " +:+ type, [])].
Proof.
  intros Hc Ht Hs run. subst run.
  rewrite (unsupported_outcome command parseBoxToScreenCoords type inputs w h st
             Hc Ht Hs).
  cbn [fst snd issued world this logged execute_entered].
  rewrite <- app_assoc. auto.
Qed.

(** A scroll request on the emulator. *)
Lemma scroll_on_the_emulator :
  let run :=
    execute Emulator.adb CoordinateMapper.resolve
      (action_params "scroll" (only_start_box "0.5,0.5") 1000 2000)
      (Emulator.state_with (new_AdbOperator Emulator.serial)
         Emulator.clean_host) in
  fst run = Return tt /\ issued (snd run) = [].
Proof.
  cbv zeta.
  pose proof (unsupported_action_is_logged_and_ignored
                Emulator.adb CoordinateMapper.resolve
                "scroll" (only_start_box "0.5,0.5") 1000 2000
                (Emulator.state_with (new_AdbOperator Emulator.serial)
                   Emulator.clean_host)
                ltac:(discriminate) ltac:(discriminate) ltac:(discriminate))
    as H.
  cbv zeta in H. destruct H as (Hr & Hi & _). split; assumption.
Defined.

(** C8: a call issues at most one command; when the Command Runner
    rejects that command the call throws the failure, and when it issues
    nothing (unresolved coordinates, empty content, unsupported type) it
    returns normally. *)
Theorem execute_propagates_transport_failure
    {Device} (command : string -> Z -> World Device -> Settled * World Device)
    (parseBoxToScreenCoords : string -> Z -> Z -> Coords)
    (params : ExecuteParams) (st : State Device) :
  let run := execute command parseBoxToScreenCoords params st in
  (issued (snd run) = issued st \/
   exists cmd, issued (snd run) = issued st ++ [cmd]) /\
  (forall cmd,
     issued (snd run) = issued st ++ [cmd] ->
     fst (command cmd 3000 (world st)) = Rejected ->
     fst run = Throw (CommandFailed cmd)) /\
  (issued (snd run) = issued st -> fst run = Return tt).
Proof.
  cbv zeta.
  destruct (execute_outcome command parseBoxToScreenCoords params st)
    as [[Hi Hr]|[cmd [Hi Hr]]].
  - split; [left; exact Hi|]. split; [|intros _; exact Hr].
    intros cmd Hcmd _. rewrite Hi in Hcmd.
    symmetry in Hcmd. apply grown_list in Hcmd. contradiction.
  - split; [right; exists cmd; exact Hi|]. split.
    + intros cmd' Hcmd Hrej. rewrite Hi in Hcmd.
      apply app_inv_head in Hcmd. injection Hcmd as ->.
      rewrite Hr, Hrej. reflexivity.
    + intros Hnone. rewrite Hi in Hnone.
      apply grown_list in Hnone. contradiction.
Qed.

(** A tap on a transport that rejects everything. *)
Lemma tap_on_unreachable_transport :
  fst (execute Emulator.unreachable CoordinateMapper.resolve
         (action_params "click" (only_start_box "0.5,0.5") 1000 2000)
         (Emulator.state_with (new_AdbOperator Emulator.serial)
            Emulator.clean_host)) =
  Throw (CommandFailed "adb -s emulator-5554 shell input tap 500 1000").
Proof.
  pose proof (execute_propagates_transport_failure
                Emulator.unreachable CoordinateMapper.resolve
                (action_params "click" (only_start_box "0.5,0.5") 1000 2000)
                (Emulator.state_with (new_AdbOperator Emulator.serial)
                   Emulator.clean_host)) as H.
  cbv zeta in H. destruct H as (_ & H & _).
  apply H; reflexivity.
Defined.

(** * The claims about the screenshot pipeline *)

(** C1: on a host that still holds [uitars_screenshot.png] from an
    earlier run (2 by 4), a capture of the emulator (3 by 5) succeeds; the
    width and height it returns are decoded from the file just pulled for
    round 1, and the payload is the encoding of [uitars_screenshot.png],
    another file with other contents. *)
Theorem screenshot_payload_is_not_the_pulled_file :
  let st :=
    Emulator.state_with (new_AdbOperator Emulator.serial)
      Emulator.host_with_old_capture in
  let run := screenshot Emulator.adb Emulator.png_size st in
  fst run =
    Return {| base64 := JS.toString_base64 Emulator.stale_capture;
              width := 3; height := 5; scaleFactor := 1 |} /\
  opened (snd run) = ["./uitars_screenshot_1.png"; "uitars_screenshot.png"] /\
  files (world (snd run)) !! resolve_path "./uitars_screenshot_1.png" =
    Some Emulator.fresh_capture /\
  Emulator.png_size Emulator.fresh_capture = Some (3, 5) /\
  Emulator.png_size Emulator.stale_capture = Some (2, 4) /\
  files (world (snd run)) !! resolve_path "uitars_screenshot.png" =
    Some Emulator.stale_capture /\
  JS.toString_base64 Emulator.stale_capture <>
    JS.toString_base64 Emulator.fresh_capture.
Proof.
  cbv zeta. repeat split; try (vm_compute; reflexivity).
  vm_compute. discriminate.
Qed.

(** C2, as stated, fails: on a transport that rejects every command, with
    the files of an earlier run on the host, the call returns a result. *)
Lemma screenshot_returns_on_unreachable_transport :
  (forall cmd timeout w, fst (Emulator.unreachable cmd timeout w) = Rejected) /\
  fst (screenshot Emulator.unreachable Emulator.png_size
         (Emulator.state_with (new_AdbOperator Emulator.serial)
            Emulator.host_with_leftovers)) =
  Return {| base64 := JS.toString_base64 Emulator.stale_capture;
            width := 2; height := 4; scaleFactor := 1 |}.
Proof. split; [reflexivity|]. vm_compute. reflexivity. Qed.

(** C2, amended: when every command fails or times out, the call still
    issues both commands and swallows both failures: the empty output
    its handlers put in their place is logged, and no command failure is
    thrown. The call then goes by the host files as the two commands left
    them: if the file of the round is missing or does not decode it throws
    the decode failure, and any result it returns carries the width and
    height decoded from that file. Where the failed commands left the
    host files as they were, a result is possible only with a decodable
    file of that round on the host before the call. *)
Theorem screenshot_on_failing_transport
    {Device} (command : string -> Z -> World Device -> Settled * World Device)
    (decode : list byte -> option (Z * Z)) (st : State Device) :
  (forall cmd timeout w, fst (command cmd timeout w) = Rejected) ->
  let run := screenshot command decode st in
  let host := files (world (snd run)) in
  let round := JS.incr (currentRound (this st)) in
  issued (snd run) = issued st ++ round_commands (deviceId (this st)) round /\
  (exists lines,
     logged (snd run) =
       logged st ++
         (info, "[AdbOperator] screencap", [LoggedString EmptyString]) ::
         (info, "[AdbOperator] pullScreenshot", [LoggedString EmptyString]) ::
         lines) /\
  (forall cmd, fst run <> Throw (CommandFailed cmd)) /\
  (host !! resolve_path (round_file round) = None \/
   (exists image,
      host !! resolve_path (round_file round) = Some image /\
      decode image = None) ->
   fst run = Throw (DecodeFailed (round_file round))) /\
  (forall out,
     fst run = Return out ->
     exists image,
       host !! resolve_path (round_file round) = Some image /\
       decode image = Some (width out, height out)) /\
  ((forall cmd w, files (snd (command cmd 3000 w)) = files w) ->
   forall out,
     fst run = Return out ->
     exists image,
       files (world st) !! resolve_path (round_file round) = Some image /\
       decode image = Some (width out, height out)).
Proof.
  intros Hfail. cbv zeta.
  assert (Hlog : logged (fetched command st) =
                 logged st ++
                   [(info, "[AdbOperator] screencap", [LoggedString EmptyString]);
                    (info, "[AdbOperator] pullScreenshot",
                     [LoggedString EmptyString])]).
  { unfold fetched. cbn [logged]. rewrite !Hfail. reflexivity. }
  assert (Hhost : (forall cmd w, files (snd (command cmd 3000 w)) = files w) ->
                  files (world (fetched command st)) = files (world st)).
  { intros Hfiles. unfold fetched. cbn [world]. rewrite !Hfiles. reflexivity. }
  split; [apply screenshot_issued|].
  rewrite screenshot_outcome. cbv zeta.
  change (currentRound (this (fetched command st)))
    with (JS.incr (currentRound (this st))).
  destruct (files (world (fetched command st)) !! resolve_path (round_file _))
    as [image|] eqn:Eimage;
    [destruct (decode image) as [[w h]|] eqn:Edecode;
     [destruct (files (world (fetched command st)) !! "uitars_screenshot.png")
        as [payload|] eqn:Epayload|]|];
    cbn [fst snd world files logged add_logged add_opened];
    (split; [eexists; rewrite Hlog, <- app_assoc; reflexivity|]);
    (split; [intros cmd; discriminate|]).
  - split; [intros [H|(image' & H & Hd)]; congruence|].
    split.
    + intros out [= <-]. exists image. auto.
    + intros Hfiles out [= <-]. exists image.
      rewrite <- (Hhost Hfiles). auto.
  - split; [intros [H|(image' & H & Hd)]; congruence|].
    split; [intros out [=]|intros _ out [=]].
  - split; [reflexivity|]. split; [intros out [=]|intros _ out [=]].
  - split; [reflexivity|]. split; [intros out [=]|intros _ out [=]].
Qed.

(** On a clean host the unreachable transport makes the call fail. *)
Lemma screenshot_fails_on_clean_host :
  (forall cmd timeout w, fst (Emulator.unreachable cmd timeout w) = Rejected) /\
  fst (screenshot Emulator.unreachable Emulator.png_size
         (Emulator.state_with (new_AdbOperator Emulator.serial)
            Emulator.clean_host)) =
  Throw (DecodeFailed "./uitars_screenshot_1.png").
Proof.
  split; [reflexivity|].
  pose proof (screenshot_on_failing_transport
                Emulator.unreachable Emulator.png_size
                (Emulator.state_with (new_AdbOperator Emulator.serial)
                   Emulator.clean_host)
                (fun _ _ _ => eq_refl)) as H.
  cbv zeta in H. destruct H as (_ & _ & _ & H & _).
  apply H. left. vm_compute. reflexivity.
Defined.

(** C6: a [screenshot()] call applies one increment to the counter and
    never lowers it (below 2^53, where increments are exact, the counter
    goes up by one); [execute] neither reads nor writes the counter; the
    first two calls on a new instance pull to the files of round 1 and of
    round 2, two different files. *)
Theorem round_counter_belongs_to_screenshot
    {Device} (command : string -> Z -> World Device -> Settled * World Device)
    (decode : list byte -> option (Z * Z))
    (parseBoxToScreenCoords : string -> Z -> Z -> Coords) :
  (forall st,
     this (snd (screenshot command decode st)) = next_round (this st)) /\
  (forall st,
     currentRound (this st) <=
     currentRound (this (snd (screenshot command decode st)))) /\
  (forall st,
     currentRound (this st) < JS.MAX_SAFE ->
     currentRound (this (snd (screenshot command decode st))) =
     currentRound (this st) + 1) /\
  (forall params st round,
     execute command parseBoxToScreenCoords params (with_round round st) =
     (fst (execute command parseBoxToScreenCoords params st),
      with_round round (snd (execute command parseBoxToScreenCoords params st)))) /\
  (forall params st,
     this (snd (execute command parseBoxToScreenCoords params st)) = this st) /\
  (forall id w,
     issued (snd (screenshots command decode 2
                    (observe_from (new_AdbOperator id) w))) =
     ["adb -s " +:+ id +:+ " shell screencap -p /sdcard/uitars_screenshot.png";
      "adb -s " +:+ id +:+
        " pull /sdcard/uitars_screenshot.png ./uitars_screenshot_1.png";
      "adb -s " +:+ id +:+ " shell screencap -p /sdcard/uitars_screenshot.png";
      "adb -s " +:+ id +:+
        " pull /sdcard/uitars_screenshot.png ./uitars_screenshot_2.png"]) /\
  resolve_path "./uitars_screenshot_1.png" <>
    resolve_path "./uitars_screenshot_2.png".
Proof.
  split; [intros st; apply screenshot_this|].
  split.
  { intros st. rewrite screenshot_this. apply incr_le. }
  split.
  { intros st Hsafe. rewrite screenshot_this. apply incr_exact, Hsafe. }
  split; [intros params st round; apply execute_ignores_round|].
  split; [intros params st; apply execute_this|].
  split; [|discriminate].
  intros id w.
  destruct (screenshots_run command decode 2 (observe_from (new_AdbOperator id) w))
    as (_ & H & _).
  { unfold JS.MAX_SAFE. simpl. lia. }
  rewrite H. reflexivity.
Qed.

(** The first call on a new instance, on the emulator. *)
Lemma first_round_on_the_emulator :
  currentRound
    (this (snd (screenshot Emulator.adb Emulator.png_size
                  (Emulator.state_with (new_AdbOperator Emulator.serial)
                     Emulator.clean_host)))) = 1.
Proof.
  apply (proj1 (proj2 (proj2
                 (round_counter_belongs_to_screenshot
                    Emulator.adb Emulator.png_size CoordinateMapper.resolve)))
           (Emulator.state_with (new_AdbOperator Emulator.serial)
              Emulator.clean_host)).
  reflexivity.
Defined.

(** C10: the counter is stepped ahead of the [try] block, with nothing
    issued or opened yet, so the pull and the decode name the new round
    and the counter has advanced however the call ends, a throw included;
    [n] calls in a row on a new instance (up to 2^53) leave the counter at
    [n] and take the rounds 1 to [n] in order, each with a file of its own,
    whatever became of the calls before. *)
Theorem round_advances_on_every_call
    {Device} (command : string -> Z -> World Device -> Settled * World Device)
    (decode : list byte -> option (Z * Z)) :
  (forall st,
     screenshot command decode st =
     try_catch
       (bind (screenshot_capture command) (fun screencap =>
        bind (screenshot_pull command screencap) (fun pullScreenshot =>
        bind (screenshot_decode decode pullScreenshot) screenshot_encode)))
       screenshot_rethrow (snd (screenshot_enter st)) /\
     this (snd (screenshot_enter st)) = next_round (this st) /\
     issued (snd (screenshot_enter st)) = issued st /\
     opened (snd (screenshot_enter st)) = opened st) /\
  (forall st,
     let after := snd (screenshot command decode st) in
     let round := JS.incr (currentRound (this st)) in
     currentRound (this after) = round /\
     issued after = issued st ++ round_commands (deviceId (this st)) round /\
     exists rest, opened after = opened st ++ round_file round :: rest) /\
  (forall st e,
     fst (screenshot command decode st) = Throw e ->
     currentRound (this (snd (screenshot command decode st))) =
     JS.incr (currentRound (this st))) /\
  (forall st n,
     currentRound (this st) = 0 ->
     Z.of_nat n <= JS.MAX_SAFE ->
     let run := screenshots command decode n st in
     length (fst run) = n /\
     currentRound (this (snd run)) = Z.of_nat n /\
     issued (snd run) =
       issued st ++
         flat_map (round_commands (deviceId (this st))) (rounds_after 0 n) /\
     NoDup (map (fun round => resolve_path (round_file round))
              (rounds_after 0 n))).
Proof.
  split.
  { intros st. split; [reflexivity|]. repeat split. }
  split.
  { intros st. cbv zeta. rewrite screenshot_this.
    split; [reflexivity|]. split; [apply screenshot_issued|].
    apply screenshot_opened. }
  split.
  { intros st e _. rewrite screenshot_this. reflexivity. }
  intros st n Hnew Hn. cbv zeta.
  destruct (screenshots_run command decode n st) as (Hthis & Hissued & Hlen).
  { rewrite Hnew. lia. }
  rewrite Hnew in Hthis, Hissued.
  split; [exact Hlen|]. split; [rewrite Hthis; reflexivity|].
  split; [exact Hissued|]. apply rounds_after_files.
Qed.

(** Three calls in a row on a transport that rejects everything: all
    three throw and the counter stands at 3. *)
Lemma three_failed_rounds :
  let run :=
    screenshots Emulator.unreachable Emulator.png_size 3
      (Emulator.state_with (new_AdbOperator Emulator.serial)
         Emulator.clean_host) in
  fst run = [Throw (DecodeFailed "./uitars_screenshot_1.png");
             Throw (DecodeFailed "./uitars_screenshot_2.png");
             Throw (DecodeFailed "./uitars_screenshot_3.png")] /\
  currentRound (this (snd run)) = 3.
Proof.
  cbv zeta. split; [vm_compute; reflexivity|].
  apply (proj2 (proj2 (proj2
                 (round_advances_on_every_call
                    Emulator.unreachable Emulator.png_size)))
           (Emulator.state_with (new_AdbOperator Emulator.serial)
              Emulator.clean_host) 3%nat).
  - reflexivity.
  - unfold JS.MAX_SAFE. simpl. lia.
Defined.

(** C9, as stated, fails: when the second call is made while the first
    awaits its capture, both calls pull to and decode the file of round 2,
    and no file of round 1 is ever written. *)
Lemma overlapping_screenshots_share_a_round_file :
  let p :=
    interleave Emulator.adb Emulator.png_size
      [first; second; first; second; first; second; first; second]
      (Emulator.state_with (new_AdbOperator Emulator.serial)
         Emulator.host_with_old_capture) in
  ran (call1 p) =
    ["adb -s emulator-5554 shell screencap -p /sdcard/uitars_screenshot.png";
     "adb -s emulator-5554 pull /sdcard/uitars_screenshot.png ./uitars_screenshot_2.png"] /\
  ran (call2 p) = ran (call1 p) /\
  read (call1 p) = ["./uitars_screenshot_2.png"; "uitars_screenshot.png"] /\
  read (call2 p) = read (call1 p) /\
  files (world (shared p)) !! resolve_path "./uitars_screenshot_1.png" = None /\
  currentRound (this (shared p)) = 2.
Proof. cbv zeta. repeat split; vm_compute; reflexivity. Qed.

(** C9, amended: each call steps the counter once, when it is made, but
    every later segment of a call reads the counter as it then stands. If
    the second call is made after the first has issued its decode (three
    turns of the first call come first; what follows is any interleaving),
    the first call keeps to the file of round [n + 1] and the second to the
    file of round [n + 2], and these are different files. The counter is
    below 2^53 throughout. A call given its four turns in a row is the
    call of the sequential model. *)
Theorem overlapping_screenshots
    {Device} (command : string -> Z -> World Device -> Settled * World Device)
    (decode : list byte -> option (Z * Z)) (st : State Device) :
  currentRound (this st) + 2 <= JS.MAX_SAFE ->
  let id := deviceId (this st) in
  let n := currentRound (this st) in
  (forall schedule,
     let p := interleave command decode schedule st in
     currentRound (this (shared p)) = n + calls_made p) /\
  (forall schedule,
     let p :=
       interleave command decode (first :: first :: first :: schedule) st in
     keeps_to_round id (n + 1) (call1 p) /\
     keeps_to_round id (n + 2) (call2 p)) /\
  resolve_path (round_file (n + 1)) <> resolve_path (round_file (n + 2)) /\
  resume_times command decode 4 NotStarted st =
    (Completed (fst (screenshot command decode st)),
     snd (screenshot command decode st)).
Proof.
  intros Hn id n. split; [|split; [|split; [|apply screenshot_by_segments]]].
  - intros schedule. cbv zeta. unfold interleave.
    apply interleave_calls_made; [exact Hn|].
    unfold calls_made. cbn. lia.
  - intros schedule. cbv zeta.
    change (interleave command decode (first :: first :: first :: schedule) st)
      with (fold_left (turn command decode) schedule
              (interleave command decode [first; first; first] st)).
    pose proof (interleave_apart command decode id n schedule _ Hn
                  (apart_after_decode command decode st Hn)) as H.
    destruct H as (_ & _ & H1 & H2 & _). split; assumption.
  - intros H. apply round_file_inj in H. lia.
Qed.

(** The second call made while the first awaits its decode. *)
Lemma screenshots_apart_on_the_emulator :
  let p :=
    interleave Emulator.adb Emulator.png_size
      [first; first; first; second; first; second; second; second]
      (Emulator.state_with (new_AdbOperator Emulator.serial)
         Emulator.host_with_old_capture) in
  0 + 2 <= JS.MAX_SAFE /\
  keeps_to_round Emulator.serial 1 (call1 p) /\
  keeps_to_round Emulator.serial 2 (call2 p).
Proof.
  cbv zeta. split; [unfold JS.MAX_SAFE; simpl; lia|].
  apply (proj1 (proj2
           (overlapping_screenshots Emulator.adb Emulator.png_size
              (Emulator.state_with (new_AdbOperator Emulator.serial)
                 Emulator.host_with_old_capture)
              ltac:(unfold JS.MAX_SAFE; simpl; lia)))
           [second; first; second; second; second]).
Defined.

(** * Device selection *)

Lemma String_split_nonempty sep s : String_split sep s <> [].
Proof.
  destruct s as [|c s]; cbn [String_split]; [discriminate|].
  destruct (Ascii.eqb c sep); [discriminate|].
  destruct (String_split sep s); discriminate.
Qed.

(** A string without the separator is its own single piece. *)
Lemma String_split_free sep s :
  free_of sep s = true -> String_split sep s = [s].
Proof.
  induction s as [|c s IH]; [reflexivity|].
  cbn [free_of String_split]. intros H.
  apply andb_true_iff in H as [Hc Hs].
  apply negb_true_iff in Hc. rewrite Hc, (IH Hs). reflexivity.
Qed.

(** Up to the first separator lies the first piece. *)
Lemma String_split_first sep a b :
  free_of sep a = true ->
  String_split sep (a +:+ String sep b) = a :: String_split sep b.
Proof.
  induction a as [|c a IH]; intros H.
  - change (EmptyString +:+ String sep b) with (String sep b).
    cbn [String_split]. rewrite Ascii.eqb_refl. reflexivity.
  - change (String c a +:+ String sep b) with (String c (a +:+ String sep b)).
    cbn [free_of] in H. apply andb_true_iff in H as [Hc Ha].
    apply negb_true_iff in Hc.
    cbn [String_split]. rewrite Hc, (IH Ha). reflexivity.
Qed.

(** No piece holds the separator, nor a character the string is free of. *)
Lemma String_split_pieces sep c s :
  Forall (fun piece =>
            free_of sep piece = true /\
            (free_of c s = true -> free_of c piece = true))
    (String_split sep s).
Proof.
  induction s as [|d s IH]; cbn [String_split].
  - constructor; [split; reflexivity|constructor].
  - destruct (Ascii.eqb d sep) eqn:E.
    + constructor; [split; reflexivity|].
      eapply Forall_impl; [exact IH|].
      intros piece [H1 H2]. split; [exact H1|].
      cbn [free_of]. intros H. apply andb_true_iff in H as [_ H]. auto.
    + destruct (String_split sep s) as [|piece pieces] eqn:Es.
      * exfalso. exact (String_split_nonempty sep s Es).
      * apply Forall_cons_iff in IH as [[H1 H2] IH].
        constructor.
        -- cbn [free_of]. rewrite E. split; [exact H1|].
           intros H. apply andb_true_iff in H as [Hd H].
           rewrite Hd. cbn. auto.
        -- eapply Forall_impl; [exact IH|].
           intros q [Hq1 Hq2]. split; [exact Hq1|].
           cbn [free_of]. intros H. apply andb_true_iff in H as [_ H]. auto.
Qed.

Lemma first_field_free c value :
  free_of tab (first_field value) = true /\
  (free_of c value = true -> free_of c (first_field value) = true).
Proof.
  unfold first_field.
  pose proof (String_split_pieces tab c value) as H.
  destruct (String_split tab value) as [|field fields].
  - split; reflexivity.
  - apply Forall_cons_iff in H as [H _]. exact H.
Qed.

Lemma first_field_of_entry id state :
  free_of tab id = true -> first_field (id +:+ String tab state) = id.
Proof.
  intros H. unfold first_field. rewrite (String_split_first tab id state H).
  reflexivity.
Qed.

(** Past the first line, every line gives its trimmed first field. *)
Lemma Array_map_indexed_rest (lines : list string) index :
  Array_map_indexed device_of_line lines (S index) =
  map (fun value => Some (JS.trim (first_field value))) lines.
Proof.
  revert index. induction lines as [|value lines IH]; intros index;
    [reflexivity|].
  cbn [Array_map_indexed map device_of_line]. rewrite IH. reflexivity.
Qed.

Lemma devices_of_lines first rest :
  free_of newline first = true ->
  devices_of (first +:+ String newline rest) =
  Array_filter_Boolean
    (map (fun value => Some (JS.trim (first_field value)))
       (String_split newline rest)).
Proof.
  intros H. unfold devices_of. rewrite (String_split_first newline first rest H).
  cbn [Array_map_indexed device_of_line Array_filter_Boolean].
  rewrite Array_map_indexed_rest. reflexivity.
Qed.

Lemma truthy_nonempty s : JS.truthy s = true <-> s <> EmptyString.
Proof. destruct s; simpl; split; congruence. Qed.

Lemma device_lines_read entries :
  Forall (fun entry => device_name (fst entry) /\
                       free_of newline (snd entry) = true) entries ->
  Array_filter_Boolean
    (map (fun value => Some (JS.trim (first_field value)))
       (String_split newline (device_lines entries))) =
  map fst entries.
Proof.
  induction entries as [|[id state] entries IH]; intros H.
  - reflexivity.
  - apply Forall_cons_iff in H as [[(Hne & Hnl & Htab & Htrim) Hstate] H].
    cbn [fst snd] in *. cbn [device_lines].
    assert (Hline : free_of newline (id +:+ String tab state) = true).
    { rewrite free_of_append. cbn [free_of]. rewrite Hnl, Hstate. reflexivity. }
    replace (id +:+ String tab state +:+ String newline (device_lines entries))
      with ((id +:+ String tab state) +:+ String newline (device_lines entries)).
    2:{ apply append_assoc. }
    rewrite (String_split_first newline _ _ Hline).
    cbn [map Array_filter_Boolean].
    rewrite (first_field_of_entry id state Htab), Htrim.
    apply truthy_nonempty in Hne. rewrite Hne.
    cbn [map]. f_equal. apply IH, H.
Qed.

(** X1: the listing that [adb devices] prints is read back in full: with
    any header line, any device names and any states, the devices found
    are the names, in the order of the lines; the state of a device plays
    no part. *)
Theorem devices_of_adb_output header (entries : list (string * string)) :
  free_of newline header = true ->
  Forall (fun entry => device_name (fst entry) /\
                       free_of newline (snd entry) = true) entries ->
  devices_of (adb_devices_output header entries) = map fst entries.
Proof.
  intros Hheader Hentries. unfold adb_devices_output.
  rewrite (devices_of_lines header _ Hheader).
  apply device_lines_read, Hentries.
Qed.

(** Two devices attached, one of them offline. *)
Lemma two_devices_listed :
  devices_of
    (adb_devices_output "List of devices attached"
       [("emulator-5554", "device"); ("59d5392d", "offline")]) =
  ["emulator-5554"; "59d5392d"].
Proof.
  apply (devices_of_adb_output "List of devices attached"
           [("emulator-5554", "device"); ("59d5392d", "offline")]).
  - reflexivity.
  - repeat constructor; discriminate.
Defined.

Lemma Array_filter_Boolean_names (lines : list string) :
  Forall (fun value => free_of newline value = true) lines ->
  Forall device_name
    (Array_filter_Boolean
       (map (fun value => Some (JS.trim (first_field value))) lines)).
Proof.
  induction lines as [|value lines IH]; intros H; [constructor|].
  apply Forall_cons_iff in H as [Hvalue H].
  cbn [map Array_filter_Boolean].
  destruct (JS.truthy (JS.trim (first_field value))) eqn:E; [|auto].
  constructor; [|auto].
  split; [apply truthy_nonempty, E|].
  split; [apply trim_free, (first_field_free newline value), Hvalue|].
  split; [apply trim_free, (first_field_free newline value)|].
  apply trim_idempotent.
Qed.

Lemma Array_filter_Boolean_length (array : list (option string)) :
  (length (Array_filter_Boolean array) <= length array)%nat.
Proof.
  induction array as [|[value|] array IH]; cbn [Array_filter_Boolean length];
    [lia| |lia].
  destruct (JS.truthy value); cbn [length]; lia.
Qed.

Lemma devices_of_well_formed stdout : Forall device_name (devices_of stdout).
Proof.
  unfold devices_of.
  pose proof (String_split_pieces newline newline stdout) as Hpieces.
  destruct (String_split newline stdout) as [|first rest] eqn:E.
  - constructor.
  - apply Forall_cons_iff in Hpieces as [_ Hrest].
    cbn [Array_map_indexed device_of_line Array_filter_Boolean].
    rewrite Array_map_indexed_rest.
    apply Array_filter_Boolean_names.
    eapply Forall_impl; [exact Hrest|]. intros piece [H _]. exact H.
Qed.

(** X2: whatever the command printed, each device found is a name: not
    empty, on one line, without a tab, with no white space around it; and
    there are fewer devices than lines. *)
Theorem devices_of_names stdout :
  Forall device_name (devices_of stdout) /\
  (length (devices_of stdout) < length (String_split newline stdout))%nat.
Proof.
  split; [apply devices_of_well_formed|].
  unfold devices_of.
  destruct (String_split newline stdout) as [|first rest] eqn:E.
  - exfalso. exact (String_split_nonempty _ _ E).
  - cbn [Array_map_indexed device_of_line Array_filter_Boolean].
    rewrite Array_map_indexed_rest.
    pose proof (Array_filter_Boolean_length
                  (map (fun value => Some (JS.trim (first_field value))) rest)).
    rewrite length_map in H. cbn [length]. lia.
Qed.

(** X3: the first line is passed over whatever it holds, so output on a
    single line (the empty output too) lists no device, and what stands
    before the first line break never changes the devices found. *)
Theorem devices_of_skips_first_line :
  (forall stdout, free_of newline stdout = true -> devices_of stdout = []) /\
  (forall first first' rest,
     free_of newline first = true -> free_of newline first' = true ->
     devices_of (first +:+ String newline rest) =
     devices_of (first' +:+ String newline rest)).
Proof.
  split.
  - intros stdout H. unfold devices_of.
    rewrite (String_split_free newline stdout H). reflexivity.
  - intros first first' rest H H'.
    rewrite (devices_of_lines first rest H), (devices_of_lines first' rest H').
    reflexivity.
Qed.

(** A device line with no header before it is taken for the header. *)
Lemma lone_device_line_is_skipped :
  devices_of "emulator-5554" = [] /\
  devices_of ("* daemon started successfully" +:+
              String newline (device_lines [("emulator-5554", "device")])) =
  devices_of (adb_devices_output "List of devices attached"
                [("emulator-5554", "device")]).
Proof.
  split.
  - apply (proj1 devices_of_skips_first_line). reflexivity.
  - apply (proj2 devices_of_skips_first_line); reflexivity.
Defined.

Section DeviceSelectionFacts.

Context {Device : Type}.
Variable command : string -> Z -> World Device -> Settled * World Device.

(** The call runs its one command and goes by what it printed. *)
Lemma getAndroidDeviceId_run prompt (st : State Device) :
  getAndroidDeviceId command prompt st =
  let devices := devices_of (device_listing command st) in
  let st' :=
    {| this := this st;
       world := snd (command "adb devices" 3000 (world st));
       issued := issued st ++ ["adb devices"];
       opened := opened st; logged := logged st |} in
  if (1 <? length devices)%nat then
    match prompt devices (head devices) with
    | Some device => (Resolves (Some device), st')
    | None => (PromptRejected, st')
    end
  else (Resolves (head devices), st').
Proof.
  unfold getAndroidDeviceId, device_listing, commandWithTimeout_catch,
    try_catch, commandWithTimeout, ret.
  destruct (command "adb devices" 3000 (world st)) as [[stdout|] w];
    reflexivity.
Qed.

End DeviceSelectionFacts.

(** X4: a failing or timed-out [adb devices] never makes the call throw:
    the call resolves with [undefined] without consulting the prompt, and
    all it has done is issue that one command (no file opened, nothing
    logged, the instance untouched). *)
Theorem getAndroidDeviceId_survives_transport_failure
    {Device} (command : string -> Z -> World Device -> Settled * World Device)
    (prompt : list string -> option string -> option string)
    (st : State Device) :
  let run := getAndroidDeviceId command prompt st in
  (forall e, fst run <> Throws e) /\
  (fst (command "adb devices" 3000 (world st)) = Rejected ->
   fst run = Resolves None) /\
  issued (snd run) = issued st ++ ["adb devices"] /\
  opened (snd run) = opened st /\
  logged (snd run) = logged st /\
  this (snd run) = this st.
Proof.
  cbv zeta. rewrite getAndroidDeviceId_run. cbv zeta.
  split.
  { intros e. destruct (1 <? _)%nat; [|discriminate].
    destruct (prompt _ _); discriminate. }
  split.
  { intros H. unfold device_listing. rewrite H. reflexivity. }
  destruct (1 <? _)%nat; [destruct (prompt _ _)|]; repeat split.
Qed.

(** No device can be found on a transport that rejects everything. *)
Lemma no_device_on_unreachable_transport :
  fst (getAndroidDeviceId Emulator.unreachable accept_default
         (Emulator.state_with (new_AdbOperator EmptyString)
            Emulator.clean_host)) = Resolves None.
Proof.
  apply (proj1 (proj2
           (getAndroidDeviceId_survives_transport_failure
              Emulator.unreachable accept_default
              (Emulator.state_with (new_AdbOperator EmptyString)
                 Emulator.clean_host)))).
  reflexivity.
Defined.

(** X5: with a prompt that answers with one of the choices put to it, a device the
    call resolves with is always one of the devices listed by the command,
    and a well-formed name; with fewer than two devices listed the prompt
    is not consulted: the call resolves with the only device, or with
    [undefined] when there is none. *)
Theorem getAndroidDeviceId_selects_a_listed_device
    {Device} (command : string -> Z -> World Device -> Settled * World Device)
    (prompt : list string -> option string -> option string)
    (st : State Device) :
  let devices := devices_of (device_listing command st) in
  (forall answer,
     prompt devices (head devices) = Some answer -> In answer devices) ->
  (forall device,
     fst (getAndroidDeviceId command prompt st) = Resolves (Some device) ->
     In device devices /\ device_name device) /\
  ((length devices <= 1)%nat ->
   forall prompt',
     fst (getAndroidDeviceId command prompt' st) = Resolves (head devices)).
Proof.
  intros devices Hprompt. split.
  - intros device. rewrite getAndroidDeviceId_run. cbv zeta.
    fold devices.
    assert (Hnames : Forall device_name devices)
      by apply devices_of_well_formed.
    assert (Hin : In device devices -> In device devices /\ device_name device).
    { intros H. split; [exact H|].
      rewrite List.Forall_forall in Hnames. apply Hnames, H. }
    destruct (1 <? length devices)%nat.
    + destruct (prompt devices (head devices)) as [answer|] eqn:E;
        [|discriminate].
      cbn [fst]. intros [= <-]. apply Hin, (Hprompt _ eq_refl).
    + cbn [fst]. intros [= H]. apply Hin.
      destruct devices as [|d ds]; [discriminate|].
      injection H as ->. left. reflexivity.
  - intros Hfew prompt'. rewrite getAndroidDeviceId_run. cbv zeta.
    fold devices.
    destruct (Nat.ltb_spec 1 (length devices)); [lia|reflexivity].
Qed.

(** Two devices attached and a user who takes the proposed one. *)
Lemma first_of_two_devices_selected :
  fst (getAndroidDeviceId (adb_with_devices ["emulator-5554"; "59d5392d"])
         accept_default
         (Emulator.state_with (new_AdbOperator EmptyString)
            Emulator.clean_host)) = Resolves (Some "emulator-5554") /\
  In "emulator-5554"
    (devices_of
       (device_listing (adb_with_devices ["emulator-5554"; "59d5392d"])
          (Emulator.state_with (new_AdbOperator EmptyString)
             Emulator.clean_host))).
Proof.
  split; [vm_compute; reflexivity|].
  apply (proj1
           (getAndroidDeviceId_selects_a_listed_device
              (adb_with_devices ["emulator-5554"; "59d5392d"]) accept_default
              (Emulator.state_with (new_AdbOperator EmptyString)
                 Emulator.clean_host)
              ltac:(intros answer H; vm_compute in H; injection H as <-;
                    left; reflexivity))).
  vm_compute. reflexivity.
Defined.

(** * The operator as a whole *)

Section OperatorFacts.

Context {Device : Type}.
Variable command : string -> Z -> World Device -> Settled * World Device.
Variable decode : list byte -> option (Z * Z).
Variable parseBoxToScreenCoords : string -> Z -> Z -> Coords.

Local Abbreviation run_execute := (execute command parseBoxToScreenCoords).

Lemma tap_addressed op px py : addressed_to (deviceId op) (tap_command op px py).
Proof. eexists. reflexivity. Qed.

Lemma text_addressed op text : addressed_to (deviceId op) (text_command op text).
Proof. eexists. reflexivity. Qed.

Lemma swipe_addressed op sx sy ex ey :
  addressed_to (deviceId op) (swipe_command op sx sy ex ey).
Proof. eexists. reflexivity. Qed.

Lemma round_commands_addressed id round :
  Forall (addressed_to id) (round_commands id round).
Proof. repeat constructor; eexists; reflexivity. Qed.

(** The three ways a call of [execute] can go. *)
Lemma execute_cases params (st : State Device) :
  let entered := execute_entered parseBoxToScreenCoords params st in
  run_execute params st = (Return tt, entered) \/
  run_execute params st =
    (Return tt,
     add_logged
       (warn, "[AdbOperator] Unsupported action: " +:+
              action_type (parsedPrediction params), [])
       entered) \/
  exists cmd,
    addressed_to (deviceId (this st)) cmd /\
    run_execute params st = after_command command cmd entered.
Proof.
  intros entered. rewrite execute_unfold. fold entered. unfold execute_switch.
  set (c := parseBoxToScreenCoords _ _ _).
  assert (Hissue : forall build : AdbOperator -> string,
    addressed_to (deviceId (this st)) (build (this st)) ->
    exists cmd,
      addressed_to (deviceId (this st)) cmd /\
      try_catch
        (bind get_this (fun op =>
           bind (commandWithTimeout command (build op)) (fun _ => ret tt)))
        execute_rethrow entered =
      after_command command cmd entered).
  { intros build Hbuild. exists (build (this st)). split; [exact Hbuild|].
    rewrite execute_issue. reflexivity. }
  destruct (String.eqb _ "click").
  { destruct (x c) as [sx|]; [destruct (y c) as [sy|]|]; try (left; reflexivity).
    right. right. apply (Hissue (fun op => tap_command op sx sy)).
    apply tap_addressed. }
  destruct (String.eqb _ "type").
  { destruct (option_map _ _) as [text|]; [|left; reflexivity].
    destruct (JS.truthy text); [|left; reflexivity].
    right. right.
    apply (Hissue (fun op => text_command op (JS.replace_shell_special text))).
    apply text_addressed. }
  destruct (String.eqb _ "swipe").
  { destruct (end_box _) as [box|]; [|left; reflexivity].
    destruct (JS.truthy box); [|left; reflexivity].
    destruct (x c) as [sx|]; [|left; reflexivity].
    destruct (y c) as [sy|]; [|left; reflexivity].
    destruct (x (parseBoxToScreenCoords box _ _)) as [ex|]; [|left; reflexivity].
    destruct (y (parseBoxToScreenCoords box _ _)) as [ey|]; [|left; reflexivity].
    right. right. apply (Hissue (fun op => swipe_command op sx sy ex ey)).
    apply swipe_addressed. }
  right. left. reflexivity.
Qed.

(** What one request adds to what has been observed. *)
Lemma serve_one_grows request (st : State Device) :
  let after := serve_one command decode parseBoxToScreenCoords request st in
  deviceId (this after) = deviceId (this st) /\
  exists cmds paths lines,
    issued after = issued st ++ cmds /\
    opened after = opened st ++ paths /\
    logged after = logged st ++ lines /\
    Forall (addressed_to (deviceId (this st))) cmds.
Proof.
  destruct request as [|params]; cbn [serve_one]; cbv zeta.
  - split; [rewrite screenshot_this; reflexivity|].
    exists (round_commands (deviceId (this st)) (JS.incr (currentRound (this st)))).
    destruct (screenshot_opened command decode st) as [rest Hopened].
    exists (round_file (JS.incr (currentRound (this st))) :: rest).
    rewrite screenshot_issued, Hopened.
    assert (Hlog : exists lines,
              logged (snd (screenshot command decode st)) = logged st ++ lines).
    { rewrite screenshot_outcome. cbv zeta.
      destruct (files _ !! _) as [image|];
        [destruct (decode image) as [[w h]|];
         [destruct (files _ !! _)|]|];
        cbn [snd add_logged add_opened logged fetched];
        rewrite <- app_assoc; eexists; reflexivity. }
    destruct Hlog as [lines Hlog]. exists lines.
    refine (conj _ (conj _ (conj _ _)));
      [reflexivity | reflexivity | exact Hlog
      | apply round_commands_addressed].
  - destruct (execute_cases params st) as [E|[E|(cmd & Hcmd & E)]];
      rewrite E.
    + split; [reflexivity|]. exists [], []. eexists.
      refine (conj _ (conj _ (conj _ _))); cbn;
        [symmetry; apply app_nil_r | symmetry; apply app_nil_r
        | reflexivity | constructor].
    + split; [reflexivity|]. exists [], []. eexists.
      refine (conj _ (conj _ (conj _ _))); cbn;
        [symmetry; apply app_nil_r | symmetry; apply app_nil_r
        | rewrite <- app_assoc; reflexivity | constructor].
    + unfold after_command.
      destruct (command cmd 3000 _) as [[out|] w]; cbn.
      * split; [reflexivity|]. exists [cmd], []. eexists.
        refine (conj _ (conj _ (conj _ _)));
          [reflexivity | symmetry; apply app_nil_r
          | reflexivity | repeat constructor; exact Hcmd].
      * split; [reflexivity|]. exists [cmd], []. eexists.
        refine (conj _ (conj _ (conj _ _)));
          [reflexivity | symmetry; apply app_nil_r
          | rewrite <- app_assoc; reflexivity
          | repeat constructor; exact Hcmd].
Qed.

Lemma serve_cons request requests (st : State Device) :
  serve command decode parseBoxToScreenCoords (request :: requests) st =
  serve command decode parseBoxToScreenCoords requests
    (serve_one command decode parseBoxToScreenCoords request st).
Proof. reflexivity. Qed.

Lemma serve_one_world request (st : State Device) :
  (forall cmd w, files (snd (command cmd 3000 w)) = files w) ->
  files (world (serve_one command decode parseBoxToScreenCoords request st)) =
  files (world st).
Proof.
  intros Hfiles. destruct request as [|params]; cbn [serve_one].
  - rewrite screenshot_outcome. cbv zeta.
    assert (H : files (world (fetched command st)) = files (world st)).
    { unfold fetched. cbn [world]. rewrite !Hfiles. reflexivity. }
    destruct (files _ !! _) as [image|];
      [destruct (decode image) as [[w h]|];
       [destruct (files _ !! _)|]|]; exact H.
  - destruct (execute_cases params st) as [E|[E|(cmd & _ & E)]]; rewrite E;
      try reflexivity.
    unfold after_command.
    pose proof (Hfiles cmd
                  (world (execute_entered parseBoxToScreenCoords params st)))
      as H.
    destruct (command cmd 3000 _) as [[out|] w]; exact H.
Qed.

End OperatorFacts.

(** X6: whatever requests an operator serves, in whatever order and
    however each ends, its device identifier stays the one it was built
    with, every command it issues is addressed to that device
    ([adb -s <id> ...]), and what has been issued, opened and logged is
    only ever added to. *)
Theorem served_requests_are_addressed_to_the_device
    {Device} (command : string -> Z -> World Device -> Settled * World Device)
    (decode : list byte -> option (Z * Z))
    (parseBoxToScreenCoords : string -> Z -> Z -> Coords)
    (requests : list Request) (st : State Device) :
  let after := serve command decode parseBoxToScreenCoords requests st in
  deviceId (this after) = deviceId (this st) /\
  exists cmds paths lines,
    issued after = issued st ++ cmds /\
    opened after = opened st ++ paths /\
    logged after = logged st ++ lines /\
    Forall (addressed_to (deviceId (this st))) cmds.
Proof.
  cbv zeta. revert st.
  induction requests as [|request requests IH]; intros st.
  - split; [reflexivity|]. exists [], [], [].
    cbn. rewrite !app_nil_r. repeat split. constructor.
  - rewrite serve_cons.
    destruct (serve_one_grows command decode parseBoxToScreenCoords request st)
      as (Hid & cmds & paths & lines & Hi & Ho & Hl & Hc).
    cbv zeta in Hid.
    destruct (IH (serve_one command decode parseBoxToScreenCoords request st))
      as (Hid' & cmds' & paths' & lines' & Hi' & Ho' & Hl' & Hc').
    rewrite Hid in Hid', Hc'.
    split; [exact Hid'|].
    exists (cmds ++ cmds'), (paths ++ paths'), (lines ++ lines').
    rewrite Hi', Ho', Hl', Hi, Ho, Hl, <- !app_assoc.
    refine (conj eq_refl (conj eq_refl (conj eq_refl _))).
    apply Forall_app. split; assumption.
Qed.

(** X7: among requests of both kinds the counter counts the screenshots:
    after any sequence of requests it has gone up by the number of
    [screenshot()] calls in it, the calls that threw included, and
    [execute] calls in between change nothing (while the counter stays
    within 2^53). *)
Theorem counter_counts_the_screenshots
    {Device} (command : string -> Z -> World Device -> Settled * World Device)
    (decode : list byte -> option (Z * Z))
    (parseBoxToScreenCoords : string -> Z -> Z -> Coords)
    (requests : list Request) (st : State Device) :
  currentRound (this st) + Z.of_nat (screenshots_among requests)
    <= JS.MAX_SAFE ->
  currentRound (this (serve command decode parseBoxToScreenCoords requests st)) =
  currentRound (this st) + Z.of_nat (screenshots_among requests).
Proof.
  revert st. induction requests as [|[|params] requests IH]; intros st Hsafe.
  - cbn. lia.
  - rewrite serve_cons. cbn [serve_one screenshots_among] in *.
    rewrite IH; rewrite screenshot_this; cbn [next_round currentRound];
      rewrite incr_exact by lia; lia.
  - rewrite serve_cons. cbn [serve_one screenshots_among] in *.
    rewrite IH; rewrite execute_this; [reflexivity|exact Hsafe].
Qed.

(** A tap between two failed captures on the unreachable transport. *)
Lemma two_screenshots_around_a_tap :
  currentRound
    (this (serve Emulator.unreachable Emulator.png_size CoordinateMapper.resolve
             [TakeScreenshot;
              Execute (action_params "click" (only_start_box "0.5,0.5") 1000 2000);
              TakeScreenshot]
             (Emulator.state_with (new_AdbOperator Emulator.serial)
                Emulator.clean_host))) = 2.
Proof.
  apply (counter_counts_the_screenshots
           Emulator.unreachable Emulator.png_size CoordinateMapper.resolve
           [TakeScreenshot;
            Execute (action_params "click" (only_start_box "0.5,0.5") 1000 2000);
            TakeScreenshot]
           (Emulator.state_with (new_AdbOperator Emulator.serial)
              Emulator.clean_host)).
  unfold JS.MAX_SAFE. simpl. lia.
Defined.

(** X8: the operator itself writes no file: when the commands it runs
    leave the files of the host as they are, so does any sequence of
    requests; nothing is created, changed or deleted. *)
Theorem served_requests_leave_the_host_files
    {Device} (command : string -> Z -> World Device -> Settled * World Device)
    (decode : list byte -> option (Z * Z))
    (parseBoxToScreenCoords : string -> Z -> Z -> Coords)
    (requests : list Request) (st : State Device) :
  (forall cmd w, files (snd (command cmd 3000 w)) = files w) ->
  files (world (serve command decode parseBoxToScreenCoords requests st)) =
  files (world st).
Proof.
  intros Hfiles. revert st.
  induction requests as [|request requests IH]; intros st; [reflexivity|].
  rewrite serve_cons, IH. apply serve_one_world, Hfiles.
Qed.

(** The leftovers of an earlier run survive requests on the unreachable
    transport. *)
Lemma leftovers_survive :
  files
    (world (serve Emulator.unreachable Emulator.png_size CoordinateMapper.resolve
              [TakeScreenshot;
               Execute (action_params "type" (only_content "hello") 1000 2000)]
              (Emulator.state_with (new_AdbOperator Emulator.serial)
                 Emulator.host_with_leftovers))) =
  Emulator.host_with_leftovers.
Proof.
  apply (served_requests_leave_the_host_files
           Emulator.unreachable Emulator.png_size CoordinateMapper.resolve
           [TakeScreenshot;
            Execute (action_params "type" (only_content "hello") 1000 2000)]
           (Emulator.state_with (new_AdbOperator Emulator.serial)
              Emulator.host_with_leftovers)).
  reflexivity.
Defined.

(** X9: the error line tells a throw: the lines a call of [execute] adds
    to the log hold its error line exactly when the call throws, and the
    lines a call of [screenshot()] adds hold its error line exactly when
    that call throws; what the line carries is the error thrown. *)
Theorem error_line_exactly_on_throw
    {Device} (command : string -> Z -> World Device -> Settled * World Device)
    (decode : list byte -> option (Z * Z))
    (parseBoxToScreenCoords : string -> Z -> Z -> Coords)
    (st : State Device) :
  (forall params,
     let run := execute command parseBoxToScreenCoords params st in
     exists lines,
       logged (snd run) = logged st ++ lines /\
       forall args,
         In (error, "[AdbOperator] Error:", args) lines <->
         exists e, fst run = Throw e /\ args = [LoggedError e]) /\
  (let run := screenshot command decode st in
   exists lines,
     logged (snd run) = logged st ++ lines /\
     forall args,
       In (error, "[AdbOperator] Screenshot error:", args) lines <->
       exists e, fst run = Throw e /\ args = [LoggedError e]).
Proof.
  split.
  - intros params. cbv zeta.
    destruct (execute_cases command parseBoxToScreenCoords params st)
      as [E|[E|(cmd & _ & E)]]; rewrite E.
    + eexists. split; [reflexivity|]. intros args. cbn. split.
      * intros [[=]|[[=]|[[=]|[]]]].
      * intros (e & [=] & _).
    + eexists. split; [cbn; rewrite <- app_assoc; reflexivity|].
      intros args. cbn. split.
      * intros [[=]|[[=]|[[=]|[[=]|[]]]]].
      * intros (e & [=] & _).
    + unfold after_command.
      destruct (command cmd 3000 _) as [[out|] w].
      * eexists. split; [reflexivity|]. intros args. cbn. split.
        -- intros [[=]|[[=]|[[=]|[]]]].
        -- intros (e & [=] & _).
      * eexists. split; [cbn; rewrite <- app_assoc; reflexivity|].
        intros args. cbn. split.
        -- intros [[=]|[[=]|[[=]|[[= <-]|[]]]]]. eauto.
        -- intros (e & [= <-] & ->). auto.
  - cbv zeta. rewrite screenshot_outcome. cbv zeta.
    destruct (files _ !! _) as [image|];
      [destruct (decode image) as [[w h]|];
       [destruct (files _ !! _)|]|];
      (eexists; split; [cbn; rewrite <- app_assoc; reflexivity|];
       intros args; cbn; split;
       [ first [ solve [intros [[=]|[[=]|[[=]|[]]]]]
               | intros [[=]|[[=]|[[= <-]|[]]]]; eauto ]
       | first [ solve [intros (e & [=] & _)]
               | intros (e & [= <-] & ->); auto ] ]).
Qed.

(** X10: each action reads its own inputs and no others; the log aside,
    which records the whole request for every action, typing does not
    depend on the boxes, the screen size or the Coordinate Mapper; a click
    does not depend on [end_box] or [content]; a swipe does not depend on
    [content]. *)
Theorem actions_read_only_their_inputs
    {Device} (command : string -> Z -> World Device -> Settled * World Device)
    (parse parse' : string -> Z -> Z -> Coords) (st : State Device) :
  (forall text from to from' to' w h w' h',
     alike
       (execute command parse
          (action_params "type"
             {| start_box := from; end_box := to; content := text |} w h) st)
       (execute command parse'
          (action_params "type"
             {| start_box := from'; end_box := to'; content := text |} w' h')
          st)) /\
  (forall from to to' text text' w h,
     alike
       (execute command parse
          (action_params "click"
             {| start_box := from; end_box := to; content := text |} w h) st)
       (execute command parse
          (action_params "click"
             {| start_box := from; end_box := to'; content := text' |} w h)
          st)) /\
  (forall from to text text' w h,
     alike
       (execute command parse
          (action_params "swipe"
             {| start_box := from; end_box := to; content := text |} w h) st)
       (execute command parse
          (action_params "swipe"
             {| start_box := from; end_box := to; content := text' |} w h)
          st)) /\
  (forall params,
     exists lines,
       logged (snd (execute command parse params st)) =
       logged st ++
         (info, "[AdbOperator] execute",
          [LoggedPrediction (parsedPrediction params);
           LoggedNumber (screenWidth params);
           LoggedNumber (screenHeight params)]) :: lines).
Proof.
  split; [|split; [|split]].
  - intros text from to from' to' w h w' h'. rewrite !execute_unfold.
    cbn [action_params parsedPrediction action_type action_inputs screenWidth
           screenHeight start_box].
    set (point := parse _ w h). set (point' := parse' _ w' h').
    change (execute_switch command parse' "type"
              {| start_box := from'; end_box := to'; content := text |}
              w' h' (x point') (y point'))
      with (execute_switch command parse "type"
              {| start_box := from; end_box := to; content := text |}
              w h (x point) (y point)).
    apply execute_switch_alike; reflexivity.
  - intros from to to' text text' w h. rewrite !execute_unfold.
    cbn [action_params parsedPrediction action_type action_inputs screenWidth
           screenHeight start_box].
    set (point := parse _ w h).
    change (execute_switch command parse "click"
              {| start_box := from; end_box := to'; content := text' |}
              w h (x point) (y point))
      with (execute_switch command parse "click"
              {| start_box := from; end_box := to; content := text |}
              w h (x point) (y point)).
    apply execute_switch_alike; reflexivity.
  - intros from to text text' w h. rewrite !execute_unfold.
    cbn [action_params parsedPrediction action_type action_inputs screenWidth
           screenHeight start_box].
    set (point := parse _ w h).
    change (execute_switch command parse "swipe"
              {| start_box := from; end_box := to; content := text' |}
              w h (x point) (y point))
      with (execute_switch command parse "swipe"
              {| start_box := from; end_box := to; content := text |}
              w h (x point) (y point)).
    apply execute_switch_alike; reflexivity.
  - intros params.
    destruct (execute_cases command parse params st)
      as [E|[E|(cmd & _ & E)]]; rewrite E.
    + eexists. reflexivity.
    + eexists. cbn. rewrite <- app_assoc. reflexivity.
    + unfold after_command.
      destruct (command cmd 3000 _) as [[out|] w]; eexists; cbn;
        [|rewrite <- app_assoc]; reflexivity.
Qed.

(** * The text that is typed *)

(** X11: the escaped content cannot leave the double quotes the command
    puts around it: read as quoted text it holds no bare double quote and
    does not end on a lone backslash; it is longer than the content by one
    character for each quote or backslash in it. *)
Theorem escaped_content_stays_quoted (text : string) :
  stays_quoted (JS.replace_shell_special text) = true /\
  String.length (JS.replace_shell_special text) =
    (String.length text + specials text)%nat.
Proof.
  induction text as [|c text [IHq IHl]]; [split; reflexivity|].
  cbn [JS.replace_shell_special specials].
  destruct (JS.shell_special c) eqn:E.
  - split.
    + cbn [stays_quoted]. rewrite Ascii.eqb_refl. exact IHq.
    + cbn [String.length]. rewrite IHl. lia.
  - destruct (not_special c E) as [Hb Hq]. split.
    + cbn [stays_quoted]. rewrite Hb, Hq. exact IHq.
    + cbn [String.length]. rewrite IHl. lia.
Qed.

(** X12: white space around the content never reaches the device, and
    white space inside it does: content made of white space, a core that
    starts and ends on other characters, and white space again is typed
    as its core; in general typing the content and typing the trimmed
    content do the same (the log aside, which records the content as it
    was given), and the trimmed content has no white space at either
    end. *)
Theorem type_drops_surrounding_white_space
    {Device} (command : string -> Z -> World Device -> Settled * World Device)
    (parseBoxToScreenCoords : string -> Z -> Z -> Coords)
    (w h : Z) (st : State Device) :
  (forall text,
     alike
       (execute command parseBoxToScreenCoords
          (action_params "type" (only_content text) w h) st)
       (execute command parseBoxToScreenCoords
          (action_params "type" (only_content (JS.trim text)) w h) st)) /\
  (forall text c,
     first_char (JS.trim text) = Some c \/ last_char (JS.trim text) = Some c ->
     JS.isWhiteSpace c = false) /\
  (forall pre core post,
     whitespace_only pre = true -> whitespace_only post = true ->
     (forall c, first_char core = Some c -> JS.isWhiteSpace c = false) ->
     (forall c, last_char core = Some c -> JS.isWhiteSpace c = false) ->
     JS.trim (pre +:+ core +:+ post) = core).
Proof.
  split; [|split].
  - intros text. rewrite !execute_unfold.
    cbn [action_params only_content parsedPrediction action_type action_inputs
           screenWidth screenHeight start_box].
    set (point := parseBoxToScreenCoords _ w h).
    assert (E : execute_switch command parseBoxToScreenCoords "type"
                  (only_content (JS.trim text)) w h (x point) (y point) =
                execute_switch command parseBoxToScreenCoords "type"
                  (only_content text) w h (x point) (y point)).
    { unfold execute_switch.
      cbn [only_content content option_map String.eqb Ascii.eqb Bool.eqb].
      rewrite trim_idempotent. reflexivity. }
    rewrite E. apply execute_switch_alike; reflexivity.
  - intros text c [H|H]; revert H; apply trim_ends.
  - apply trim_core.
Qed.

(** Content between a line feed and two spaces. *)
Lemma padded_content_is_typed_bare :
  JS.trim (String newline " " +:+ "O'Brien said hi" +:+ "  ") = "O'Brien said hi".
Proof.
  apply (proj2 (proj2
           (type_drops_surrounding_white_space
              Emulator.adb CoordinateMapper.resolve 1000 2000
              (Emulator.state_with (new_AdbOperator Emulator.serial)
                 Emulator.clean_host)))
           (String newline " ") "O'Brien said hi" "  ");
    try reflexivity; intros c [= <-]; reflexivity.
Defined.

(** * The pixel that is hit *)

(** X13: the coordinates are rounded when the command is built, each on
    its own: the tap and the swipe command carry, for a finite coordinate,
    the integer nearest to it (within half a pixel, the larger one on a
    tie) and, for NaN or an infinity, that value; a coordinate that is an
    integer already is kept, and rounding never swaps the order of two
    finite coordinates, so a swipe is not turned around. *)
Theorem rounded_coordinate_is_nearest
    (op : AdbOperator) (sx sy ex ey : JS.Number Q) :
  exists x1 y1 x2 y2 : JS.Number Z,
    tap_command op sx sy =
      tap_text (deviceId op) (JS.Number_toString x1) (JS.Number_toString y1) /\
    swipe_command op sx sy ex ey =
      swipe_text (deviceId op) (JS.Number_toString x1) (JS.Number_toString y1)
        (JS.Number_toString x2) (JS.Number_toString y2) /\
    rounded sx x1 /\ rounded sy y1 /\ rounded ex x2 /\ rounded ey y2 /\
    (forall n : Z, sx = JS.Finite (inject_Z n) -> x1 = JS.Finite n) /\
    (forall q q' n n',
       sx = JS.Finite q -> ex = JS.Finite q' ->
       x1 = JS.Finite n -> x2 = JS.Finite n' -> (q <= q')%Q -> n <= n').
Proof.
  assert (Hrounded : forall v, rounded v (JS.Math_round v)).
  { intros [q| | |]; cbn [rounded JS.Math_round]; auto using Math_round_nearest. }
  exists (JS.Math_round sx), (JS.Math_round sy),
    (JS.Math_round ex), (JS.Math_round ey).
  split; [reflexivity|]. split; [reflexivity|].
  do 4 (split; [apply Hrounded|]).
  split.
  - intros n ->. cbn [JS.Math_round]. f_equal.
    symmetry. apply nearest_unique. split.
    + apply (Qplus_le_l _ _ (1 # 2)). ring_simplify.
      rewrite <- (Qplus_0_r (inject_Z n)) at 1.
      apply Qplus_le_r. discriminate.
    + rewrite <- (Qplus_0_r (inject_Z n)) at 1.
      apply Qplus_lt_r. reflexivity.
  - intros q q' n n' -> -> Hn Hn' H. cbn [JS.Math_round] in Hn, Hn'.
    assert (En : n = Qfloor (q + (1 # 2))) by congruence.
    assert (En' : n' = Qfloor (q' + (1 # 2))) by congruence.
    rewrite En, En'. apply Qfloor_resp_le, Qplus_le_l, H.
Qed.

(** * When a screenshot is returned *)

(** X14: a call of [screenshot()] returns a result exactly when, once its
    two commands have run, the host holds a file for the round that
    decodes and a file [uitars_screenshot.png]; the result then has the
    decoded size, the encoding of [uitars_screenshot.png] and scale
    factor 1. *)
Theorem screenshot_returns_exactly_when_both_files_are_there
    {Device} (command : string -> Z -> World Device -> Settled * World Device)
    (decode : list byte -> option (Z * Z)) (st : State Device) :
  let run := screenshot command decode st in
  let host := files (world (snd run)) in
  let round := JS.incr (currentRound (this st)) in
  ((exists out, fst run = Return out) <->
   (exists image size payload,
      host !! resolve_path (round_file round) = Some image /\
      decode image = Some size /\
      host !! resolve_path "uitars_screenshot.png" = Some payload)) /\
  (forall image size payload,
     host !! resolve_path (round_file round) = Some image ->
     decode image = Some size ->
     host !! resolve_path "uitars_screenshot.png" = Some payload ->
     fst run =
     Return {| base64 := JS.toString_base64 payload;
               width := fst size; height := snd size; scaleFactor := 1 |}).
Proof.
  cbv zeta. rewrite screenshot_outcome. cbv zeta.
  change (currentRound (this (fetched command st)))
    with (JS.incr (currentRound (this st))).
  destruct (files (world (fetched command st)) !! resolve_path (round_file _))
    as [image|] eqn:Eimage; cbn [fst snd world files add_logged add_opened].
  - destruct (decode image) as [[w h]|] eqn:Edecode;
      cbn [fst snd world files add_logged add_opened].
    + destruct (files (world (fetched command st)) !! "uitars_screenshot.png")
        as [payload|] eqn:Epayload;
        cbn [fst snd world files add_logged add_opened].
      * split.
        -- split; [|eauto]. intros _. exists image, (w, h), payload.
           rewrite Eimage. auto.
        -- intros image' size payload'.
           rewrite Eimage. intros [= <-]. rewrite Edecode. intros [= <-].
           change (resolve_path "uitars_screenshot.png")
             with "uitars_screenshot.png".
           rewrite Epayload. intros [= <-]. reflexivity.
      * split.
        -- split; [intros [out [=]]|].
           intros (image' & size & payload & _ & _ & H).
           change (resolve_path "uitars_screenshot.png")
             with "uitars_screenshot.png" in H. congruence.
        -- intros image' size payload' _ _ H.
           change (resolve_path "uitars_screenshot.png")
             with "uitars_screenshot.png" in H. congruence.
    + split.
      * split; [intros [out [=]]|].
        intros (image' & size & payload & H & Hd & _).
        rewrite Eimage in H. congruence.
      * intros image' size payload' H Hd _. rewrite Eimage in H. congruence.
  - split.
    + split; [intros [out [=]]|].
      intros (image' & size & payload & H & _). rewrite Eimage in H. congruence.
    + intros image' size payload' H _ _. rewrite Eimage in H. congruence.
Qed.

(** The emulator with the payload file of an earlier run on the host. *)
Lemma screenshot_with_both_files :
  fst (screenshot Emulator.adb Emulator.png_size
         (Emulator.state_with (new_AdbOperator Emulator.serial)
            Emulator.host_with_old_capture)) =
  Return {| base64 := JS.toString_base64 Emulator.stale_capture;
            width := 3; height := 5; scaleFactor := 1 |}.
Proof.
  apply (proj2
           (screenshot_returns_exactly_when_both_files_are_there
              Emulator.adb Emulator.png_size
              (Emulator.state_with (new_AdbOperator Emulator.serial)
                 Emulator.host_with_old_capture))
           Emulator.fresh_capture (3, 5) Emulator.stale_capture);
    vm_compute; reflexivity.
Defined.

(** * The timeout *)

(** X15: every command is run with the default timeout of 3000 ms and no
    other: two transports that behave alike at that timeout cannot be
    told apart by [screenshot()], by [execute] or by
    [getAndroidDeviceId()]. *)
Theorem commands_run_with_the_default_timeout
    {Device}
    (command command' : string -> Z -> World Device -> Settled * World Device)
    (decode : list byte -> option (Z * Z))
    (parseBoxToScreenCoords : string -> Z -> Z -> Coords)
    (prompt : list string -> option string -> option string) :
  (forall cmd w, command cmd 3000 w = command' cmd 3000 w) ->
  (forall st, screenshot command decode st = screenshot command' decode st) /\
  (forall params st,
     execute command parseBoxToScreenCoords params st =
     execute command' parseBoxToScreenCoords params st) /\
  (forall st,
     getAndroidDeviceId command prompt st =
     getAndroidDeviceId command' prompt st).
Proof.
  intros Hsame. split; [|split].
  - intros st. rewrite !screenshot_outcome. cbv zeta.
    assert (E : fetched command st = fetched command' st).
    { unfold fetched. cbv zeta.
      rewrite (Hsame (screencap_command (next_round (this st))) (world st)).
      rewrite (Hsame (pull_command (next_round (this st)))). reflexivity. }
    rewrite E. reflexivity.
  - intros params st. rewrite !execute_unfold. unfold execute_switch.
    set (c := parseBoxToScreenCoords _ _ _).
    assert (Hissue : forall build : AdbOperator -> string,
      try_catch
        (bind get_this (fun op =>
           bind (commandWithTimeout command (build op)) (fun _ => ret tt)))
        execute_rethrow (execute_entered parseBoxToScreenCoords params st) =
      try_catch
        (bind get_this (fun op =>
           bind (commandWithTimeout command' (build op)) (fun _ => ret tt)))
        execute_rethrow (execute_entered parseBoxToScreenCoords params st)).
    { intros build. rewrite !execute_issue, Hsame. reflexivity. }
    destruct (String.eqb _ "click").
    { destruct (x c) as [sx|]; [destruct (y c) as [sy|]|]; try reflexivity.
      apply (Hissue (fun op => tap_command op sx sy)). }
    destruct (String.eqb _ "type").
    { destruct (option_map _ _) as [text|]; [|reflexivity].
      destruct (JS.truthy text); [|reflexivity].
      apply (Hissue (fun op => text_command op (JS.replace_shell_special text))). }
    destruct (String.eqb _ "swipe").
    { destruct (end_box _) as [box|]; [|reflexivity].
      destruct (JS.truthy box); [|reflexivity].
      destruct (x c) as [sx|]; [|reflexivity].
      destruct (y c) as [sy|]; [|reflexivity].
      destruct (x (parseBoxToScreenCoords box _ _)) as [ex|]; [|reflexivity].
      destruct (y (parseBoxToScreenCoords box _ _)) as [ey|]; [|reflexivity].
      apply (Hissue (fun op => swipe_command op sx sy ex ey)). }
    reflexivity.
  - intros st. rewrite !getAndroidDeviceId_run. cbv zeta.
    unfold device_listing. rewrite !Hsame. reflexivity.
Qed.

(** A transport that serves commands at three seconds only is as good as
    the emulator's. *)
Lemma three_seconds_are_enough :
  screenshot three_seconds_only Emulator.png_size
    (Emulator.state_with (new_AdbOperator Emulator.serial)
       Emulator.host_with_old_capture) =
  screenshot Emulator.adb Emulator.png_size
    (Emulator.state_with (new_AdbOperator Emulator.serial)
       Emulator.host_with_old_capture).
Proof.
  apply (proj1
           (commands_run_with_the_default_timeout
              three_seconds_only Emulator.adb Emulator.png_size
              CoordinateMapper.resolve accept_default
              (fun cmd w => eq_refl))).
Defined.

(** * The payload *)

Lemma in_byte_range n : (n < 256)%N -> In n byte_range.
Proof.
  intros H. unfold byte_range. apply in_map_iff.
  exists (N.to_nat n). split; [apply N2Nat.id|].
  apply in_seq. lia.
Qed.

Lemma base64_digit_value n :
  (n < 64)%N -> base64_value (JS.base64_digit n) = Some n.
Proof.
  intros H.
  assert (Hall : forallb
            (fun m => match base64_value (JS.base64_digit m) with
                      | Some v => N.eqb v m
                      | None => false
                      end) (map N.of_nat (seq 0 64)) = true)
    by (vm_compute; reflexivity).
  rewrite forallb_forall in Hall.
  assert (Hin : In n (map N.of_nat (seq 0 64))).
  { apply in_map_iff. exists (N.to_nat n). split; [apply N2Nat.id|].
    apply in_seq. lia. }
  specialize (Hall n Hin).
  destruct (base64_value (JS.base64_digit n)) as [v|]; [|discriminate].
  f_equal. apply N.eqb_eq, Hall.
Qed.

Lemma sextets_checked a b :
  (a < 256)%N -> (b < 256)%N -> sextets_sound a b = true.
Proof.
  intros Ha Hb.
  assert (Hall : forallb (fun x => forallb (sextets_sound x) byte_range)
                   byte_range = true)
    by (vm_compute; reflexivity).
  rewrite forallb_forall in Hall.
  specialize (Hall a (in_byte_range a Ha)).
  rewrite forallb_forall in Hall.
  exact (Hall b (in_byte_range b Hb)).
Qed.

Lemma byte_below_256 (b : byte) : (Byte.to_N b < 256)%N.
Proof. pose proof (Byte.to_N_bounded b). lia. Qed.

Lemma byte_of_to_N (b : byte) : byte_of (Byte.to_N b) = b.
Proof. unfold byte_of. rewrite Byte.of_to_N. reflexivity. Qed.

Lemma sextets_of_bytes a b :
  (a < 256)%N -> (b < 256)%N ->
  (JS.sextet0 a < 64 /\ JS.sextet1 a b < 64 /\ JS.sextet2 a b < 64 /\
   JS.sextet3 a < 64 /\
   JS.sextet0 a = a / 4 /\
   JS.sextet1 a b / 16 = a mod 4 /\ JS.sextet1 a b mod 16 = b / 16 /\
   JS.sextet2 a b / 4 = a mod 16 /\ JS.sextet2 a b mod 4 = b / 64 /\
   JS.sextet3 a = a mod 64)%N.
Proof.
  intros Ha Hb. pose proof (sextets_checked a b Ha Hb) as H.
  unfold sextets_sound in H.
  repeat (apply andb_true_iff in H as [H ?]).
  repeat match goal with
         | H : (_ <? _)%N = true |- _ => apply N.ltb_lt in H
         | H : (_ =? _)%N = true |- _ => apply N.eqb_eq in H
         end.
  repeat split; assumption.
Qed.

(** The bytes come back out of their four characters. *)
Lemma from_base64_group a b c rest :
  from_base64
    (String (JS.base64_digit (JS.sextet0 (Byte.to_N a)))
       (String (JS.base64_digit (JS.sextet1 (Byte.to_N a) (Byte.to_N b)))
          (String (JS.base64_digit (JS.sextet2 (Byte.to_N b) (Byte.to_N c)))
             (String (JS.base64_digit (JS.sextet3 (Byte.to_N c))) rest)))) =
  a :: b :: c :: from_base64 rest.
Proof.
  pose proof (byte_below_256 a) as Ha.
  pose proof (byte_below_256 b) as Hb.
  pose proof (byte_below_256 c) as Hc.
  destruct (sextets_of_bytes _ _ Ha Hb)
    as (A0 & A1 & _ & _ & E0 & E1 & E1' & _).
  destruct (sextets_of_bytes _ _ Hb Hc)
    as (_ & _ & B2 & _ & _ & _ & _ & E2 & E2' & _).
  destruct (sextets_of_bytes _ _ Hc Hc)
    as (_ & _ & _ & C3 & _ & _ & _ & _ & _ & E3).
  cbn [from_base64].
  rewrite !base64_digit_value by assumption.
  rewrite E0, E1, E1', E2, E2', E3.
  replace (Byte.to_N a / 4 * 4 + Byte.to_N a mod 4)%N with (Byte.to_N a)
    by (pose proof (N.div_mod (Byte.to_N a) 4); lia).
  replace (Byte.to_N b / 16 * 16 + Byte.to_N b mod 16)%N with (Byte.to_N b)
    by (pose proof (N.div_mod (Byte.to_N b) 16); lia).
  replace (Byte.to_N c / 64 * 64 + Byte.to_N c mod 64)%N with (Byte.to_N c)
    by (pose proof (N.div_mod (Byte.to_N c) 64); lia).
  rewrite !byte_of_to_N. reflexivity.
Qed.

Lemma from_base64_one a :
  from_base64
    (String (JS.base64_digit (JS.sextet0 (Byte.to_N a)))
       (String (JS.base64_digit (JS.sextet1 (Byte.to_N a) 0)) "==")) = [a].
Proof.
  pose proof (byte_below_256 a) as Ha.
  destruct (sextets_of_bytes (Byte.to_N a) 0 Ha ltac:(lia))
    as (A0 & A1 & _ & _ & E0 & E1 & _).
  cbn [from_base64].
  rewrite !base64_digit_value by assumption.
  rewrite E0, E1.
  replace (Byte.to_N a / 4 * 4 + Byte.to_N a mod 4)%N with (Byte.to_N a)
    by (pose proof (N.div_mod (Byte.to_N a) 4); lia).
  rewrite byte_of_to_N. reflexivity.
Qed.

Lemma from_base64_two a b :
  from_base64
    (String (JS.base64_digit (JS.sextet0 (Byte.to_N a)))
       (String (JS.base64_digit (JS.sextet1 (Byte.to_N a) (Byte.to_N b)))
          (String (JS.base64_digit (JS.sextet2 (Byte.to_N b) 0)) "="))) =
  [a; b].
Proof.
  pose proof (byte_below_256 a) as Ha.
  pose proof (byte_below_256 b) as Hb.
  destruct (sextets_of_bytes _ _ Ha Hb)
    as (A0 & A1 & _ & _ & E0 & E1 & E1' & _).
  destruct (sextets_of_bytes (Byte.to_N b) 0 Hb ltac:(lia))
    as (_ & _ & B2 & _ & _ & _ & _ & E2 & _).
  cbn [from_base64].
  rewrite !base64_digit_value by assumption.
  rewrite E0, E1, E1', E2.
  replace (Byte.to_N a / 4 * 4 + Byte.to_N a mod 4)%N with (Byte.to_N a)
    by (pose proof (N.div_mod (Byte.to_N a) 4); lia).
  replace (Byte.to_N b / 16 * 16 + Byte.to_N b mod 16)%N with (Byte.to_N b)
    by (pose proof (N.div_mod (Byte.to_N b) 16); lia).
  rewrite !byte_of_to_N. reflexivity.
Qed.

Lemma from_base64_toString n : forall buf : list byte,
  (length buf <= n)%nat -> from_base64 (JS.toString_base64 buf) = buf.
Proof.
  induction n as [|n IH]; intros buf Hlen.
  - destruct buf; [reflexivity|cbn [length] in Hlen; lia].
  - destruct buf as [|a [|b [|c rest]]].
    + reflexivity.
    + cbn [JS.toString_base64]. cbv zeta. apply from_base64_one.
    + cbn [JS.toString_base64]. cbv zeta. apply from_base64_two.
    + cbn [JS.toString_base64]. cbv zeta. cbn [length] in Hlen.
      rewrite from_base64_group, IH by lia. reflexivity.
Qed.

Lemma toString_base64_length n : forall buf : list byte,
  (length buf <= n)%nat ->
  String.length (JS.toString_base64 buf) = (4 * ((length buf + 2) / 3))%nat.
Proof.
  induction n as [|n IH]; intros buf Hlen.
  - destruct buf; [reflexivity|cbn [length] in Hlen; lia].
  - destruct buf as [|a [|b [|c rest]]].
    + reflexivity.
    + reflexivity.
    + reflexivity.
    + cbn [JS.toString_base64]. cbv zeta. cbn [String.length length] in *.
      rewrite IH by lia.
      replace (S (S (S (length rest))) + 2)%nat
        with (length rest + 2 + 1 * 3)%nat by lia.
      rewrite Nat.div_add by lia. lia.
Qed.

(** X16: the payload holds the file: the base64 text of a buffer reads
    back to the very bytes of the buffer, so two files with the same
    payload are the same file; the payload has four characters for every
    three bytes, the last group filled up. *)
Theorem payload_holds_the_file (buf : list byte) :
  from_base64 (JS.toString_base64 buf) = buf /\
  (forall buf',
     JS.toString_base64 buf = JS.toString_base64 buf' -> buf = buf') /\
  String.length (JS.toString_base64 buf) = (4 * ((length buf + 2) / 3))%nat.
Proof.
  split; [apply (from_base64_toString (length buf)); lia|].
  split.
  - intros buf' H.
    rewrite <- (from_base64_toString (length buf) buf) by lia.
    rewrite <- (from_base64_toString (length buf') buf') by lia.
    rewrite H. reflexivity.
  - apply (toString_base64_length (length buf)). lia.
Qed.

(** * What the commands report *)

(** X17: what the two commands of [screenshot()] print, and whether they
    succeed, has no bearing on the call: two transports with the same
    effect on the device and the host give the same completion, the same
    instance, the same commands and the same files opened, however
    differently they settle. *)
Theorem screenshot_ignores_what_commands_report
    {Device}
    (command command' : string -> Z -> World Device -> Settled * World Device)
    (decode : list byte -> option (Z * Z)) (st : State Device) :
  (forall cmd w, snd (command cmd 3000 w) = snd (command' cmd 3000 w)) ->
  let run := screenshot command decode st in
  let run' := screenshot command' decode st in
  fst run = fst run' /\
  this (snd run) = this (snd run') /\
  world (snd run) = world (snd run') /\
  issued (snd run) = issued (snd run') /\
  opened (snd run) = opened (snd run').
Proof.
  intros Hsame. cbv zeta. rewrite !screenshot_outcome. cbv zeta.
  set (st2 := fetched command st). set (st2' := fetched command' st).
  assert (Hthis : this st2 = this st2') by reflexivity.
  assert (Hissued : issued st2 = issued st2') by reflexivity.
  assert (Hopened : opened st2 = opened st2') by reflexivity.
  assert (Hworld : world st2 = world st2').
  { unfold st2, st2', fetched. cbn [world]. rewrite !Hsame. reflexivity. }
  rewrite Hthis, Hworld.
  destruct (files (world st2') !! resolve_path _) as [image|];
    [destruct (decode image) as [[w h]|];
     [destruct (files (world st2') !! _)|]|];
    cbn [fst snd this world issued opened add_logged add_opened];
    rewrite ?Hthis, ?Hopened; auto.
Qed.

(** Commands that overrun their timeout after the work is done: the
    capture is returned all the same. *)
Lemma late_commands_still_give_a_capture :
  fst (screenshot late_adb Emulator.png_size
         (Emulator.state_with (new_AdbOperator Emulator.serial)
            Emulator.host_with_old_capture)) =
  fst (screenshot Emulator.adb Emulator.png_size
         (Emulator.state_with (new_AdbOperator Emulator.serial)
            Emulator.host_with_old_capture)).
Proof.
  apply (screenshot_ignores_what_commands_report
           late_adb Emulator.adb Emulator.png_size
           (Emulator.state_with (new_AdbOperator Emulator.serial)
              Emulator.host_with_old_capture)
           (fun cmd w => eq_refl)).
Defined.
